(** * The log store of [utility/logger.js]

    A shallow embedding of the [Logger] class: the entry formatter, the two
    date regular expressions, the query filter, the retention compaction and
    the promise chain that serialises every operation on the backing file.

    JavaScript strings are modelled as [string] (the log file is ASCII text
    written by the logger itself), JavaScript integers as [Z]. *)

From Stdlib Require Import ZArith List String Ascii Bool Lia.
From Stdlib Require Import Numbers.DecimalString.
Import ListNotations.

Local Open Scope string_scope.
Local Open Scope Z_scope.
Local Open Scope list_scope.

(* ================================================================= *)
(** ** JavaScript string primitives used by the logger *)

Module JsString.

(** The line feed, written ["\n"] in the source. *)
Definition LF : ascii := ascii_of_nat 10.

Definition nl : string := String LF EmptyString.

(** [s.split(sep)] for a one-character separator: the pieces between the
    separators, empty pieces included (["a\n".split("\n")] is [["a"; ""]]). *)
Fixpoint split (sep : ascii) (s : string) : list string :=
  match s with
  | EmptyString => [EmptyString]
  | String c s' =>
      if Ascii.eqb c sep then EmptyString :: split sep s'
      else match split sep s' with
           | [] => [String c EmptyString]
           | x :: xs => String c x :: xs
           end
  end.

(** [arr.join(sep)]. *)
Fixpoint join (sep : string) (l : list string) : string :=
  match l with
  | [] => EmptyString
  | [x] => x
  | x :: xs => (x ++ sep ++ join sep xs)%string
  end.

(** [s.includes(sub)]: [sub] occurs somewhere in [s]. *)
Fixpoint includes (s sub : string) : bool :=
  String.prefix sub s ||
  match s with
  | EmptyString => false
  | String _ s' => includes s' sub
  end.

(** Truthiness of a string: only the empty string is falsy. *)
Definition nonempty (s : string) : bool :=
  match s with
  | EmptyString => false
  | String _ _ => true
  end.

(** Truthiness of an argument that is either [null] or a string. *)
Definition truthy (o : option string) : bool :=
  match o with
  | None => false
  | Some s => nonempty s
  end.

(** [String(n)] for an integer [n]. *)
Definition ToString (n : Z) : string := NilZero.string_of_int (Z.to_int n).

Definition is_digit (c : ascii) : bool :=
  let n := nat_of_ascii c in (Nat.leb 48 n && Nat.leb n 57)%bool.

(** [Number(s)] for a string of decimal digits, as the captures of the
    date expression are. *)
Definition ToNumber (s : string) : Z :=
  List.fold_left
    (fun acc c => 10 * acc + (Z.of_nat (nat_of_ascii c) - 48))
    (list_ascii_of_string s) 0.

(** No line feed occurs in [s]. *)
Fixpoint one_line (s : string) : bool :=
  match s with
  | EmptyString => true
  | String c s' => negb (Ascii.eqb c LF) && one_line s'
  end.

End JsString.

(* ================================================================= *)
(** ** Regular expressions

    The fragment of ECMAScript regular expressions the logger builds: an
    expression anchored at the start of the input, made of character
    classes, literals, greedy bounded repetition of a class, greedy
    optional parts and capturing groups.  The matcher is the backtracking
    one of the language: alternatives are tried in priority order and the
    first complete match wins. *)

Module RegExp.

Inductive regex : Type :=
| Chr (p : ascii -> bool)                 (* one character of a class *)
| Lit (s : string)                        (* literal text *)
| Rep (p : ascii -> bool) (lo hi : nat)   (* p{lo,hi}, greedy *)
| Cat (r1 r2 : regex)
| Opt (r : regex)                         (* (?:r)?, greedy *)
| Grp (i : nat) (r : regex).              (* i-th capturing group *)

(** Captures: group number and captured text, latest first. *)
Definition captures : Type := list (nat * string).

Fixpoint capture (i : nat) (c : captures) : option string :=
  match c with
  | [] => None
  | (j, s) :: c' => if Nat.eqb i j then Some s else capture i c'
  end.

(** Strip the literal [l] from the front of [s]. *)
Fixpoint strip (l s : string) : option string :=
  match l, s with
  | EmptyString, _ => Some s
  | String a l', String b s' => if Ascii.eqb a b then strip l' s' else None
  | String _ _, EmptyString => None
  end.

Section Matcher.
Context {R : Type}.

(** A continuation receives the text matched so far by the current
    sub-expression, the rest of the input and the captures. *)
Definition cont : Type := string -> string -> captures -> option R.

Definition or_else (a : option R) (b : option R) : option R :=
  match a with
  | Some x => Some x
  | None => b
  end.

(** [p{lo,hi}]: take one more character when allowed, and fall back to
    stopping here when the rest does not match. *)
Fixpoint rep (p : ascii -> bool) (lo hi : nat) (acc s : string)
  (caps : captures) (k : cont) : option R :=
  let stop := match lo with O => k acc s caps | S _ => None end in
  match hi with
  | O => stop
  | S hi' =>
      match s with
      | String c s' =>
          if p c
          then or_else
                 (rep p (Nat.pred lo) hi' (acc ++ String c EmptyString)%string s' caps k)
                 stop
          else stop
      | EmptyString => stop
      end
  end.

Fixpoint backtrack (r : regex) (s : string) (caps : captures) (k : cont) : option R :=
  match r with
  | Chr p =>
      match s with
      | String c s' => if p c then k (String c EmptyString) s' caps else None
      | EmptyString => None
      end
  | Lit l =>
      match strip l s with
      | Some s' => k l s' caps
      | None => None
      end
  | Rep p lo hi => rep p lo hi EmptyString s caps k
  | Cat r1 r2 =>
      backtrack r1 s caps (fun t1 s1 c1 =>
      backtrack r2 s1 c1 (fun t2 s2 c2 => k (t1 ++ t2)%string s2 c2))
  | Opt r' =>
      or_else (backtrack r' s caps k) (k EmptyString s caps)
  | Grp i r' =>
      backtrack r' s caps (fun t s' c' => k t s' ((i, t) :: c'))
  end.

End Matcher.

(** [str.match(re)] for an expression that starts with [^] and has no
    global flag: [None] is [null], otherwise the whole match and the
    captures. *)
Definition exec (r : regex) (s : string) : option (string * captures) :=
  backtrack r s [] (fun t _ c => Some (t, c)).

(** [re.test(str)]. *)
Definition test (r : regex) (s : string) : bool :=
  match exec r s with
  | Some _ => true
  | None => false
  end.

(** The classes [\d], [\s] and [.]. *)
Definition digit : ascii -> bool := JsString.is_digit.

Definition space (c : ascii) : bool :=
  let n := nat_of_ascii c in
  ((Nat.leb 9 n && Nat.leb n 13) || Nat.eqb n 32 || Nat.eqb n 160)%bool.

Definition any (c : ascii) : bool :=
  let n := nat_of_ascii c in negb (Nat.eqb n 10 || Nat.eqb n 13)%bool.

Definition cat_all (l : list regex) : regex :=
  List.fold_right Cat (Lit EmptyString) l.

End RegExp.

(* ================================================================= *)
(** ** Dates

    What the logger uses of [Date]: the local-time getters read by
    [#format], and the time value of [new Date(y, m, d, h, mi, s, ms)]
    computed as in ECMA-262 (MakeDay, MakeTime, MakeDate, UTC).  The
    offset of the host's time zone is a parameter. *)

Module JsDate.

(** A [Date] object seen through its local-time getters. *)
Record DateObj : Type := {
  getFullYear : Z;
  getMonth : Z;          (* 0 .. 11 *)
  getDate : Z;           (* 1 .. 31 *)
  getHours : Z;
  getMinutes : Z;
  getSeconds : Z;
  getMilliseconds : Z
}.

Definition msPerDay : Z := 86400000.

Definition DayFromYear (y : Z) : Z :=
  365 * (y - 1970) + (y - 1969) / 4 - (y - 1901) / 100 + (y - 1601) / 400.

Definition InLeapYear (y : Z) : bool :=
  ((y mod 4 =? 0) && (negb (y mod 100 =? 0) || (y mod 400 =? 0)))%bool.

(** Days from the start of the year to the start of month [m] (0-based). *)
Definition DayWithinYear (m : Z) (leap : bool) : Z :=
  let l := if leap then 1 else 0 in
  match m with
  | 0 => 0
  | 1 => 31
  | 2 => 59 + l
  | 3 => 90 + l
  | 4 => 120 + l
  | 5 => 151 + l
  | 6 => 181 + l
  | 7 => 212 + l
  | 8 => 243 + l
  | 9 => 273 + l
  | 10 => 304 + l
  | _ => 334 + l
  end.

Definition MakeDay (year month date : Z) : Z :=
  let ym := year + month / 12 in
  let mn := month mod 12 in
  DayFromYear ym + DayWithinYear mn (InLeapYear ym) + date - 1.

Definition MakeTime (hour min sec ms : Z) : Z :=
  hour * 3600000 + min * 60000 + sec * 1000 + ms.

Definition MakeDate (day time : Z) : Z := day * msPerDay + time.

(** [UTC(t)]: the local time value [t] as a UTC time value. *)
Definition UTC (LocalTZA : Z -> Z) (t : Z) : Z := t - LocalTZA t.

(** [new Date(year, month, date, hours, minutes, seconds, ms).getTime()].
    A year from 0 to 99 stands for 1900 + year.  The fields the logger
    passes have at most four digits, so the value is far inside the range
    where TimeClip is the identity. *)
Definition getTime (LocalTZA : Z -> Z)
  (year month date hours minutes seconds ms : Z) : Z :=
  let yr := if ((0 <=? year) && (year <=? 99))%bool then 1900 + year else year in
  UTC LocalTZA (MakeDate (MakeDay yr month date) (MakeTime hours minutes seconds ms)).

End JsDate.

(* ================================================================= *)
(** ** The backing file

    The state of the one path the logger owns, and [readFile] and
    [writeFile] of [fs/promises] on it.  An operation fails when the file
    is missing, exists already (exclusive flags) or lacks the permission;
    a failed operation leaves the file as it was. *)

Module Fs.

Inductive errno : Type := ENOENT | EEXIST | EACCES | EINVAL.

Record file : Type := {
  data : string;
  readable : bool;
  writable : bool
}.

(** [None]: no file at the path. *)
Definition disk : Type := option file.

Definition create (text : string) : file :=
  {| data := text; readable := true; writable := true |}.

Definition readFile (d : disk) : string + errno :=
  match d with
  | None => inr ENOENT
  | Some f => if readable f then inl (data f) else inr EACCES
  end.

(** The four flags the constructor accepts: ['a'] appends, ['w'] truncates,
    and the ['x'] variants fail when the path exists. *)
Definition writeFile (d : disk) (text : string) (flag : string) : disk + errno :=
  match d with
  | None =>
      if (String.eqb flag "a" || String.eqb flag "ax" ||
          String.eqb flag "w" || String.eqb flag "wx")%bool
      then inl (Some (create text))
      else inr EINVAL
  | Some f =>
      if String.eqb flag "a" then
        if writable f
        then inl (Some {| data := (data f ++ text)%string;
                          readable := readable f; writable := writable f |})
        else inr EACCES
      else if String.eqb flag "w" then
        if writable f
        then inl (Some {| data := text;
                          readable := readable f; writable := writable f |})
        else inr EACCES
      else if (String.eqb flag "ax" || String.eqb flag "wx")%bool then inr EEXIST
      else inr EINVAL
  end.

End Fs.

(* ================================================================= *)
(** ** Values, async functions and promises *)

Module Js.

Inductive jsval : Type :=
| undefined
| null
| Str (s : string)
| Arr (l : list string)
| SystemError (code : Fs.errno)            (* rejection of fs/promises *)
| TypeError (msg : string)
| Error (msg : string) (cause : jsval).    (* new Error(msg + cause) *)

(** How the body of an async function ends. *)
Inductive outcome (A : Type) : Type :=
| Return (a : A)
| Throw (e : jsval).

Arguments Return {A} a.
Arguments Throw {A} e.

(** An async function body: it runs against the backing file. *)
Definition Async (A : Type) : Type := Fs.disk -> Fs.disk * outcome A.

Definition ret {A} (a : A) : Async A := fun d => (d, Return a).

Definition throw {A} (e : jsval) : Async A := fun d => (d, Throw e).

(** [await]: a rejection of the awaited promise is thrown. *)
Definition bind {A B} (c : Async A) (k : A -> Async B) : Async B :=
  fun d =>
    match c d with
    | (d', Return a) => k a d'
    | (d', Throw e) => (d', Throw e)
    end.

(** [p.catch(h)]. *)
Definition catch {A} (c : Async A) (h : jsval -> Async A) : Async A :=
  fun d =>
    match c d with
    | (d', Return a) => (d', Return a)
    | (d', Throw e) => h e d'
    end.

(** State of a settled promise. *)
Inductive settled : Type :=
| Fulfilled (v : jsval)
| Rejected (v : jsval).

Definition settle (o : outcome jsval) : settled :=
  match o with
  | Return v => Fulfilled v
  | Throw e => Rejected e
  end.

(** [prev.then(f)] with a single handler: [f] runs only when [prev] is
    fulfilled; a rejection of [prev] passes through and [f] is skipped. *)
Definition then_ (prev : settled) (f : Async jsval) (d : Fs.disk)
  : Fs.disk * settled :=
  match prev with
  | Fulfilled _ => let (d', o) := f d in (d', settle o)
  | Rejected e => (d, Rejected e)
  end.

(** A callback supplied by the caller: it receives up to two arguments
    and either returns ([None]) or throws a value. *)
Definition callback : Type := jsval -> jsval -> option jsval.

Definition call (cb : option callback) (a b : jsval) : Async unit :=
  fun d =>
    match cb with
    | None => (d, Return tt)
    | Some f =>
        match f a b with
        | None => (d, Return tt)
        | Some e => (d, Throw e)
        end
    end.

Definition readFile : Async jsval :=
  fun d =>
    match Fs.readFile d with
    | inl s => (d, Return (Str s))
    | inr e => (d, Throw (SystemError e))
    end.

Definition writeFile (text flag : string) : Async unit :=
  fun d =>
    match Fs.writeFile d text flag with
    | inl d' => (d', Return tt)
    | inr e => (d, Throw (SystemError e))
    end.

End Js.

Notation "x <- c ;; k" := (Js.bind c (fun x => k))
  (at level 61, c at next level, right associativity).

(* ================================================================= *)
(** ** The Logger class *)

Import JsString RegExp JsDate Js.

(** One link of the promise chain: the arguments of a [#handler] call.
    A ["clean_up"] link also carries the clock of its run: [clock i] is
    what the [i]-th call of [Date.now()] made by the filter reads. *)
Inductive task : Type :=
| log_task (event_param : string)
| get_logs_task (cb : option callback) (date content : option string)
| clean_up_with (clock : nat -> Z).

(** A ["clean_up"] link during whose run every [Date.now()] reads [now]. *)
Definition clean_up_task (now : Z) : task := clean_up_with (fun _ => now).

(** The fields of a [Logger].  [promise_chain] holds the links chained so
    far, oldest first. *)
Record Logger : Type := {
  flag : string;
  path : string;
  promise_chain : list task;
  date_regex : regex;
  date_cleanUp_regex : regex;
  auto_format : bool;
  log_max_age : Z
}.

(** A delimiter the two expressions take literally: printable, not
    alphanumeric and not a character of the expression syntax, so that
    neither pasting it into the pattern nor writing a backslash before it
    changes its meaning. *)
Definition literal_char (c : ascii) : bool :=
  let n := nat_of_ascii c in
  (Nat.leb 32 n && Nat.leb n 126 &&
   negb (Nat.leb 48 n && Nat.leb n 57) &&
   negb (Nat.leb 65 n && Nat.leb n 90) &&
   negb (Nat.leb 97 n && Nat.leb n 122) &&
   negb (existsb (Ascii.eqb c) (list_ascii_of_string "\^$.|?*+()[]{}")))%bool.

Definition literal_delimiter (s : string) : bool :=
  (nonempty s && forallb literal_char (list_ascii_of_string s))%bool.

(** The delimiters whose patterns are modelled: the literal ones, and the
    single dot.  Any other delimiter changes the syntax of the pattern it
    is pasted into (a group, a class, a quantifier, an alternation, an
    escape) or makes [new RegExp] throw; those patterns are not modelled. *)
Definition modelled_delimiter (s : string) : bool :=
  (literal_delimiter s || String.eqb s ".")%bool.

(** A modelled delimiter pasted as it is into a pattern: a dot matches
    any character, a literal delimiter matches itself. *)
Definition pasted (s : string) : regex :=
  if String.eqb s "." then Chr any else Lit s.

(** A modelled delimiter pasted after a backslash: the backslash escapes
    its first character, so that the dot, too, matches itself. *)
Definition escaped (s : string) : regex := Lit s.

(** [^\[?\d{1,2}D\d{1,2}D\d{4}\s?(?:\d{1,2}T\d{1,2}T\d{1,2}.\d{1,3})?]
    where [D] and [T] are the delimiters, pasted as they are.  The pattern
    is a template literal, in which [\.] is a plain dot: any character.
    The expression is the one of the source for modelled delimiters. *)
Definition make_date_regex (date_delimiter time_delimiter : string) : regex :=
  cat_all [ Opt (Lit "[");
        Rep digit 1 2; pasted date_delimiter;
        Rep digit 1 2; pasted date_delimiter;
        Rep digit 4 4;
        Opt (Chr space);
        Opt (cat_all [ Rep digit 1 2; pasted time_delimiter;
                   Rep digit 1 2; pasted time_delimiter;
                   Rep digit 1 2; Chr any; Rep digit 1 3 ]) ].

(** [^\[?(\d{1,2})\D(\d{1,2})\D(\d{4})\s?(?:(\d{1,2})T(\d{1,2})T(\d{1,2}).(\d{1,3}))?]
    where the date delimiter [D] comes after a backslash and the time
    delimiter [T] is pasted as it is.  The expression is the one of the
    source for modelled delimiters. *)
Definition make_date_cleanUp_regex (date_delimiter time_delimiter : string) : regex :=
  cat_all [ Opt (Lit "[");
        Grp 1 (Rep digit 1 2); escaped date_delimiter;
        Grp 2 (Rep digit 1 2); escaped date_delimiter;
        Grp 3 (Rep digit 4 4);
        Opt (Chr space);
        Opt (cat_all [ Grp 4 (Rep digit 1 2); pasted time_delimiter;
                   Grp 5 (Rep digit 1 2); pasted time_delimiter;
                   Grp 6 (Rep digit 1 2); Chr any; Grp 7 (Rep digit 1 3) ]) ].

Definition valid_flag (flag : string) : bool :=
  (String.eqb flag "a" || String.eqb flag "ax" ||
   String.eqb flag "w" || String.eqb flag "wx")%bool.

(** The field assignments of the constructor body. *)
Definition initialised (file flag : string) (max_age : Z)
  (date_delimiter time_delimiter : string) (auto_format : bool) : Logger :=
  {| flag := flag;
     path := file;
     promise_chain := [];
     date_regex := make_date_regex date_delimiter time_delimiter;
     date_cleanUp_regex := make_date_cleanUp_regex date_delimiter time_delimiter;
     auto_format := auto_format;
     log_max_age := max_age |}.

(** [new Logger(file, flag, max_age, date_delimiter, time_delimiter, auto_format)];
    a missing [file] is the empty string.  The two checks come first; the
    expressions are built after them.  [None]: the delimiters are not
    modelled ones, and what [new RegExp] makes of the patterns, a
    [SyntaxError] or some other expression, is outside this model. *)
Definition constructor (file flag : string) (max_age : Z)
  (date_delimiter time_delimiter : string) (auto_format : bool)
  : option (outcome Logger) :=
  if negb (nonempty file) then
    Some (Throw (Error ("Syntaxerror: missing constructor parameter " ++ nl ++
                        "Expected at least 1 parameter for Logger class")%string
                       (Str "")))
  else if negb (valid_flag flag) then
    Some (Throw (Error "I/O Error: Logger flag must be 'a', 'ax', 'w' or 'wx'"
                       (Str "")))
  else if (modelled_delimiter date_delimiter && modelled_delimiter time_delimiter)%bool
  then
    Some (Return (initialised file flag max_age date_delimiter time_delimiter
                              auto_format))
  else None.

(** The default values of the optional constructor parameters. *)
Definition default_flag : string := "a".
Definition default_max_age : Z := 7776000.
Definition default_date_delimiter : string := "/".
Definition default_time_delimiter : string := ":".

(** ["0" + n] when [n < 10], as [#format] pads a field. *)
Definition pad (n : Z) : string :=
  if n <? 10 then ("0" ++ ToString n)%string else ToString n.

(** [#format(message, dateObj)]. *)
Definition format (this : Logger) (message : string) (dateObj : DateObj) : string :=
  let year := getFullYear dateObj in
  let month := getMonth dateObj + 1 in
  let day := getDate dateObj in
  let hours := getHours dateObj in
  let minutes := getMinutes dateObj in
  let seconds := getSeconds dateObj in
  let milliseconds := getMilliseconds dateObj in
  (nl ++ "[" ++ pad day ++ "/" ++ pad month ++ "/" ++ ToString year ++ " " ++
   pad hours ++ ":" ++ pad minutes ++ ":" ++ pad seconds ++ "." ++
   ToString milliseconds ++ "] - " ++ message ++ nl)%string.

(** [#getLogData()]: the non-empty lines of the file.  A failed read is
    caught and its error becomes [data], on which [split] does not exist. *)
Definition getLogData (this : Logger) : Async (list string) :=
  data <- catch readFile (fun err => ret err) ;;
  match data with
  | Str s => ret (flat_map (fun x => if nonempty x then [x] else []) (split LF s))
  | _ => throw (TypeError "data.split is not a function")
  end.

(** The filter of the ["get_logs"] case.  [event_param] is always an
    object there, so [!event_param] is false. *)
Definition get_logs_filter (date content : option string) (log : string) : bool :=
  if negb (nonempty log) then false
  else if (negb (truthy content) && negb (truthy date))%bool then true
  else if (truthy content && includes log (match content with Some c => c | None => "" end))%bool
  then true
  else if (truthy date && includes log (match date with Some d => d | None => "" end))%bool
  then true
  else false.

(** [ma[i] || 0] as a number. *)
Definition or0 (g : option string) : Z :=
  match g with
  | Some s => if nonempty s then ToNumber s else 0
  | None => 0
  end.

(** [ma[i]] as a number, for a group that took part in the match. *)
Definition num (g : option string) : Z :=
  match g with
  | Some s => ToNumber s
  | None => 0
  end.

Section Host.

(** Offset of the host's local time from UTC, in milliseconds, at a local
    time value. *)
Variable LocalTZA : Z -> Z.

(** The time value of the date built from a match of [#date_cleanUp_regex]. *)
Definition match_time (ma : string * captures) : Z :=
  let g i := capture i (snd ma) in
  getTime LocalTZA (num (g 3%nat)) (num (g 2%nat) - 1) (num (g 1%nat))
          (or0 (g 4%nat)) (or0 (g 5%nat)) (or0 (g 6%nat)) (or0 (g 7%nat)).

(** The callback of the filter of the ["clean_up"] case on one entry,
    [now] being what its [Date.now()] reads.  [log_max_age] is read when
    the link runs. *)
Definition clean_up_filter (this : Logger) (now : Z) (log : string) : bool :=
  if negb (nonempty log) then false
  else match exec (date_cleanUp_regex this) log with
       | None => false
       | Some ma =>
           let age := now - match_time ma in
           if age >? log_max_age this * 1000 then false else true
       end.

(** The callback calls [Date.now()] only for an entry that is not empty
    and that the expression matches. *)
Definition reads_clock (this : Logger) (log : string) : bool :=
  if negb (nonempty log) then false
  else match exec (date_cleanUp_regex this) log with
       | None => false
       | Some _ => true
       end.

(** [logs.filter(...)] of the ["clean_up"] case, [k] calls of [Date.now()]
    having been made so far in the run: each entry is judged with the
    reading of its own call. *)
Fixpoint clean_up_pass (this : Logger) (clock : nat -> Z) (k : nat)
  (logs : list string) : list string :=
  match logs with
  | [] => []
  | log :: rest =>
      let k' := if reads_clock this log then S k else k in
      if clean_up_filter this (clock k) log
      then log :: clean_up_pass this clock k' rest
      else clean_up_pass this clock k' rest
  end.

(** [#handler(event, event_param)]. *)
Definition handler (this : Logger) (t : task) : Async jsval :=
  match t with
  | log_task event_param =>
      _ <- catch (writeFile event_param (flag this))
                 (fun err => throw (Error "Error in log1: " err)) ;;
      ret undefined
  | get_logs_task cb date content =>
      logs <- getLogData this ;;
      if (negb (truthy content) && negb (truthy date))%bool then
        _ <- call cb (Arr logs) undefined ;;
        ret (Arr logs)
      else
        let filtered_logs := filter (get_logs_filter date content) logs in
        _ <- call cb (Arr filtered_logs) undefined ;;
        ret (Arr filtered_logs)
  | clean_up_with clock =>
      logs <- getLogData this ;;
      let filtered_logs := clean_up_pass this clock 0 logs in
      let filtered_logs := flat_map (fun x => [""; x]) filtered_logs in
      let filtered_logs := filtered_logs ++ [""] in
      _ <- catch (writeFile (join nl filtered_logs) "w")
                 (fun err => throw (Error "" err)) ;;
      ret undefined
  end.

(** Chaining one more link: [this.#promise_chain = this.#promise_chain.then(...)]. *)
Definition chain (this : Logger) (t : task) : Logger :=
  {| flag := flag this;
     path := path this;
     promise_chain := promise_chain this ++ [t];
     date_regex := date_regex this;
     date_cleanUp_regex := date_cleanUp_regex this;
     auto_format := auto_format this;
     log_max_age := log_max_age this |}.

(** [log(text, format)]; [clock] is the [new Date()] of the call. *)
Definition log (this : Logger) (text : string) (fmt : bool) (clock : DateObj) : Logger :=
  let log := if (auto_format this || fmt)%bool then format this text clock else text in
  chain this (log_task log).

(** A promise handed to a caller: already settled, or the link of the
    chain with the given position. *)
Inductive promise : Type :=
| Settled (s : settled)
| Link (n : nat).

Definition invalid_date (date : string) : string :=
  ("Invalid date: " ++ date ++ ". Must be in the format DD/MM/YYYY HH:MM:SS")%string.

(** [getLogs(cb, date, content)]: the logger afterwards and the promise
    returned.  An exception of the callback rejects the promise of the
    async function with the value thrown. *)
Definition getLogs (this : Logger) (cb : option callback)
  (date content : option string) : Logger * promise :=
  match date with
  | Some d =>
      if (nonempty d && negb (test (date_regex this) d))%bool then
        match cb with
        | Some f =>
            match f null (Str (invalid_date d)) with
            | Some e => (this, Settled (Rejected e))
            | None => (this, Settled (Rejected (Str (invalid_date d))))
            end
        | None => (this, Settled (Rejected (Str (invalid_date d))))
        end
      else (chain this (get_logs_task cb date content),
            Link (List.length (promise_chain this)))
  | None => (chain this (get_logs_task cb date content),
             Link (List.length (promise_chain this)))
  end.

(** [cleanUp()], with the clock of the run of its link. *)
Definition cleanUp_clock (this : Logger) (clock : nat -> Z) : Logger :=
  chain this (clean_up_with clock).

(** [cleanUp()] whose link reads [now] at every [Date.now()] of its run. *)
Definition cleanUp (this : Logger) (now : Z) : Logger :=
  chain this (clean_up_task now).

(** One link: [prev.then(() => this.#handler(...).catch(err => err))]. *)
Definition link (this : Logger) (prev : settled) (t : task) (d : Fs.disk)
  : Fs.disk * settled :=
  then_ prev (catch (handler this t) (fun err => ret err)) d.

(** The event loop running the links in order, from a chain in state
    [prev]: the file afterwards and how each link settled.  A link reads
    nothing but the file and its own arguments, so it does not matter how
    the calls that chained the links were interleaved with their runs. *)
Fixpoint drain (this : Logger) (prev : settled) (ts : list task) (d : Fs.disk)
  : Fs.disk * list settled :=
  match ts with
  | [] => (d, [])
  | t :: ts' =>
      let (d', s) := link this prev t d in
      let (d'', ss) := drain this s ts' d' in
      (d'', s :: ss)
  end.

(** The chain starts as [Promise.resolve()]. *)
Definition run (this : Logger) (d : Fs.disk) : Fs.disk * list settled :=
  drain this (Fulfilled undefined) (promise_chain this) d.

(** What a caller awaiting [p] gets once the chain has run. *)
Definition await (results : list settled) (p : promise) : option settled :=
  match p with
  | Settled s => Some s
  | Link n => nth_error results n
  end.

End Host.

(* ================================================================= *)
(** ** Vocabulary of the properties *)

(** The entries of a file content: its non-empty lines, as [#getLogData]
    computes them from a successful read. *)
Definition entries (raw : string) : list string :=
  flat_map (fun x => if nonempty x then [x] else []) (split LF raw).

(** The text at the path; nothing when there is no file. *)
Definition contents (d : Fs.disk) : string :=
  match d with
  | None => EmptyString
  | Some f => Fs.data f
  end.

(** The path is free, or holds a file that can be read and written. *)
Definition accessible (d : Fs.disk) : bool :=
  match d with
  | None => true
  | Some f => (Fs.readable f && Fs.writable f)%bool
  end.

(** The text of a compacted file holding the entries [l]:
    [["", e1, "", e2, ..., ""].join("\n")]. *)
Definition compacted (l : list string) : string :=
  join nl (flat_map (fun x => [""; x]) l ++ [""]).

(** The line [#format] writes between its two line feeds. *)
Definition entry_line (message : string) (dateObj : DateObj) : string :=
  ("[" ++ pad (getDate dateObj) ++ "/" ++ pad (getMonth dateObj + 1) ++ "/" ++
   ToString (getFullYear dateObj) ++ " " ++
   pad (getHours dateObj) ++ ":" ++ pad (getMinutes dateObj) ++ ":" ++
   pad (getSeconds dateObj) ++ "." ++
   ToString (getMilliseconds dateObj) ++ "] - " ++ message)%string.

(** The getters of a [Date] whose year has four digits. *)
Definition wf_clock (c : DateObj) : Prop :=
  1000 <= getFullYear c <= 9999 /\ 0 <= getMonth c <= 11 /\
  1 <= getDate c <= 31 /\ 0 <= getHours c <= 23 /\
  0 <= getMinutes c <= 59 /\ 0 <= getSeconds c <= 59 /\
  0 <= getMilliseconds c <= 999.

(** The time value the compaction reads back from the line of [c]. *)
Definition written_time (LocalTZA : Z -> Z) (c : DateObj) : Z :=
  getTime LocalTZA (getFullYear c) (getMonth c + 1 - 1) (getDate c)
          (getHours c) (getMinutes c) (getSeconds c) (getMilliseconds c).

(** A batch of [log(text, format)] calls, each with the clock of its call. *)
Definition submit (this : Logger) (calls : list (string * bool * DateObj)) : Logger :=
  fold_left (fun lg c => log lg (fst (fst c)) (snd (fst c)) (snd c)) calls this.

(** What a [log] call appends to the file. *)
Definition written (this : Logger) (c : string * bool * DateObj) : string :=
  if (auto_format this || snd (fst c))%bool
  then format this (fst (fst c)) (snd c)
  else fst (fst c).

Definition is_fulfilled (s : settled) : Prop :=
  match s with
  | Fulfilled _ => True
  | Rejected _ => False
  end.

(** The texts of [l] one after the other. *)
Definition text_of (l : list string) : string :=
  fold_right String.append EmptyString l.

(** An entry contains the filter [flt], when one is supplied. *)
Definition contains_filter (flt : option string) (e : string) : bool :=
  match flt with
  | Some s => (nonempty s && includes e s)%bool
  | None => false
  end.

(** The callback, when there is one, returns normally. *)
Definition returns (cb : option callback) : Prop :=
  forall g, cb = Some g -> forall a b, g a b = None.

(** *** The formats as the specification words them *)

(** The entry line of the specification: the configured delimiters between
    the fields of the date and of the time. *)
Definition spec_format (date_delimiter time_delimiter : string)
  (message : string) (c : DateObj) : string :=
  let two n := if n <? 10 then ("0" ++ ToString n)%string else ToString n in
  (nl ++ "[" ++ two (getDate c) ++ date_delimiter ++ two (getMonth c + 1) ++
   date_delimiter ++ ToString (getFullYear c) ++ " " ++
   two (getHours c) ++ time_delimiter ++ two (getMinutes c) ++ time_delimiter ++
   two (getSeconds c) ++ "." ++ ToString (getMilliseconds c) ++
   "] - " ++ message ++ nl)%string.

(** The date pattern of the specification,
    [DD<dateDelim>MM<dateDelim>YYYY[ HH<timeDelim>MM<timeDelim>SS.mmm]]:
    the whole string, two-digit fields, a four-digit year, and a
    millisecond of up to three digits as the formatter writes it. *)
Definition spec_date_pattern (date_delimiter time_delimiter : string) : regex :=
  cat_all [ Rep digit 2 2; Lit date_delimiter;
            Rep digit 2 2; Lit date_delimiter;
            Rep digit 4 4;
            Opt (cat_all [ Lit " ";
                           Rep digit 2 2; Lit time_delimiter;
                           Rep digit 2 2; Lit time_delimiter;
                           Rep digit 2 2; Lit "."; Rep digit 1 3 ]) ].

(** [s] as a whole matches [r] (the expression [^r$]). *)
Definition full_match (r : regex) (s : string) : bool :=
  match backtrack r s [] (fun _ rest _ => if nonempty rest then None else Some tt) with
  | Some _ => true
  | None => false
  end.

Definition conforms (date_delimiter time_delimiter s : string) : bool :=
  full_match (spec_date_pattern date_delimiter time_delimiter) s.

(** *** Declarative meaning of the expressions

    [Matches r t c c']: [r] can match the text [t], turning the captures
    [c] into [c']. *)
Inductive Matches : regex -> string -> captures -> captures -> Prop :=
| MChr p a c : p a = true -> Matches (Chr p) (String a EmptyString) c c
| MLit l c : Matches (Lit l) l c c
| MRep p lo hi t c :
    (lo <= String.length t <= hi)%nat ->
    forallb p (list_ascii_of_string t) = true ->
    Matches (Rep p lo hi) t c c
| MCat r1 r2 t1 t2 c c1 c2 :
    Matches r1 t1 c c1 -> Matches r2 t2 c1 c2 ->
    Matches (Cat r1 r2) (t1 ++ t2)%string c c2
| MOptSome r t c c' : Matches r t c c' -> Matches (Opt r) t c c'
| MOptNone r c : Matches (Opt r) EmptyString c c
| MGrp i r t c c' : Matches r t c c' -> Matches (Grp i r) t c ((i, t) :: c').

(** *** Data of the worked examples *)

(** A host whose local time is UTC. *)
Definition utc_host : Z -> Z := fun _ => 0.

(** 5 March 2024, 07:08:09.004. *)
Definition sample_clock : DateObj :=
  {| getFullYear := 2024; getMonth := 2; getDate := 5;
     getHours := 7; getMinutes := 8; getSeconds := 9; getMilliseconds := 4 |}.

(** Its time value on that host. *)
Definition sample_time : Z := 1709622489004.

(** [new Logger("test.log")]. *)
Definition sample_logger : Logger :=
  initialised "test.log" default_flag default_max_age
              default_date_delimiter default_time_delimiter true.

(** [new Logger("test.log", "a", 7776000, "/", ":", false)]. *)
Definition raw_logger : Logger :=
  initialised "test.log" "a" 7776000 "/" ":" false.

(** [new Logger("test.log", "a", 7776000, "-", ".")]. *)
Definition dashed_logger : Logger :=
  initialised "test.log" "a" 7776000 "-" "." true.

(** [new Logger("test.log", "ax")]. *)
Definition exclusive_logger : Logger :=
  initialised "test.log" "ax" 7776000 "/" ":" true.

(** A readable and writable file with the given text. *)
Definition file_with (text : string) : Fs.file := Fs.create text.

(** *** Vocabulary of the further properties *)

(** The link is a query: a ["get_logs"] call of the handler. *)
Definition is_query (t : task) : bool :=
  match t with
  | get_logs_task _ _ _ => true
  | _ => false
  end.

(** The link is a write of [log]. *)
Definition is_log (t : task) : bool :=
  match t with
  | log_task _ => true
  | _ => false
  end.

(** What the ["log"] case throws when its write fails with [code]. *)
Definition log_error (code : Fs.errno) : jsval :=
  Error "Error in log1: " (SystemError code).

(** The day of [c] as [#format] writes it: [DD/MM/YYYY]. *)
Definition day_string (c : DateObj) : string :=
  (pad (getDate c) ++ "/" ++ pad (getMonth c + 1) ++ "/" ++
   ToString (getFullYear c))%string.

(** The time value of the start of the day of [c]. *)
Definition midnight_time (LocalTZA : Z -> Z) (c : DateObj) : Z :=
  getTime LocalTZA (getFullYear c) (getMonth c + 1 - 1) (getDate c) 0 0 0 0.

(** [new Logger("test.log", "w")]. *)
Definition truncating_logger : Logger :=
  initialised "test.log" "w" 7776000 "/" ":" true.

(** A callback that throws the string ["boom"]. *)
Definition throwing_callback : callback := fun _ _ => Some (Str "boom").

(** All characters of [s] are decimal digits. *)
Definition all_digits (s : string) : bool :=
  forallb digit (list_ascii_of_string s).

(** *** Timestamps as they stand in an entry *)

(** The number of [Date.now()] calls the filter makes on [logs]. *)
Definition clock_reads (this : Logger) (logs : list string) : nat :=
  List.length (filter (reads_clock this) logs).

(** The fields of a timestamp written in an entry, as numbers; the month
    is the written one, counted from 1. *)
Record stamp : Type := {
  stamp_year : Z;
  stamp_month : Z;
  stamp_day : Z;
  stamp_hours : Z;
  stamp_minutes : Z;
  stamp_seconds : Z;
  stamp_milliseconds : Z
}.

(** The instant the fields name in the local time of the host, in
    milliseconds since the epoch. *)
Definition stamp_time (LocalTZA : Z -> Z) (s : stamp) : Z :=
  getTime LocalTZA (stamp_year s) (stamp_month s - 1) (stamp_day s)
          (stamp_hours s) (stamp_minutes s) (stamp_seconds s)
          (stamp_milliseconds s).

(** [t] is a run of [lo] to [hi] decimal digits. *)
Definition digits (lo hi : nat) (t : string) : Prop :=
  (lo <= String.length t <= hi)%nat /\ all_digits t = true.

(** [r] does not go on with a digit. *)
Definition no_digit_ahead (r : string) : Prop :=
  match r with
  | String c _ => digit c = false
  | EmptyString => True
  end.

(** [r] does not go on with a white space character. *)
Definition no_space_ahead (r : string) : Prop :=
  match r with
  | String c _ => space c = false
  | EmptyString => True
  end.

(** Nothing, or one white space character. *)
Definition blank (w : string) : Prop :=
  w = EmptyString \/ exists c, w = String c EmptyString /\ space c = true.

(** [Stamped dd td e s]: the entry [e] starts with a timestamp that reads
    as [s], for the delimiters [dd] and [td]: an optional ['['], the day
    and the month in one or two digits and the year in four, then either a
    time (hours, minutes, seconds in one or two digits, a separator that is
    no digit, one to three digits of milliseconds) after at most one white
    space, or no time at all, in which case the time is midnight. *)
Inductive Stamped (dd td : string) : string -> stamp -> Prop :=
| Stamped_time (b D M Y w h mi se ms rest : string) (sep : ascii) :
    b = EmptyString \/ b = "[" ->
    digits 1 2 D -> digits 1 2 M -> digits 4 4 Y ->
    blank w ->
    digits 1 2 h -> digits 1 2 mi -> digits 1 2 se ->
    any sep = true -> digit sep = false ->
    digits 1 3 ms ->
    String.length ms = 3%nat \/ no_digit_ahead rest ->
    Stamped dd td
      (b ++ D ++ dd ++ M ++ dd ++ Y ++ w ++
       h ++ td ++ mi ++ td ++ se ++ String sep (ms ++ rest))
      {| stamp_year := ToNumber Y; stamp_month := ToNumber M;
         stamp_day := ToNumber D; stamp_hours := ToNumber h;
         stamp_minutes := ToNumber mi; stamp_seconds := ToNumber se;
         stamp_milliseconds := ToNumber ms |}
| Stamped_day (b D M Y w rest : string) :
    b = EmptyString \/ b = "[" ->
    digits 1 2 D -> digits 1 2 M -> digits 4 4 Y ->
    blank w ->
    no_digit_ahead rest ->
    (w = EmptyString -> no_space_ahead rest) ->
    Stamped dd td
      (b ++ D ++ dd ++ M ++ dd ++ Y ++ w ++ rest)
      {| stamp_year := ToNumber Y; stamp_month := ToNumber M;
         stamp_day := ToNumber D; stamp_hours := 0;
         stamp_minutes := 0; stamp_seconds := 0;
         stamp_milliseconds := 0 |}.

(** [Takes r t s' c c']: on the input [t ++ s'], the first way the
    matcher tries for [r] takes [t] and turns the captures [c] into [c'],
    so that the matcher returns what the continuation returns there. *)
Definition Takes (r : regex) (t s' : string) (c c' : captures) : Prop :=
  forall (R : Type) (k : @cont R) (x : R),
    k t s' c' = Some x -> backtrack r (t ++ s') c k = Some x.

(** [r] matches nothing at the front of [s]. *)
Definition Fails (r : regex) (s : string) (c : captures) : Prop :=
  forall (R : Type) (k : @cont R), backtrack r s c k = None.

(* ================================================================= *)
(** * Properties *)

(** ** Strings, lines and entries *)

Lemma append_assoc (a b c : string) :
  ((a ++ b) ++ c)%string = (a ++ (b ++ c))%string.
Proof.
  induction a as [|x a IH]; simpl; [reflexivity|].
  now rewrite IH.
Qed.

Lemma append_empty_r (a : string) : (a ++ "")%string = a.
Proof.
  induction a as [|x a IH]; simpl; [reflexivity|].
  now rewrite IH.
Qed.

Lemma split_not_nil (sep : ascii) (s : string) : split sep s <> [].
Proof.
  destruct s as [|c s]; simpl; [discriminate|].
  destruct (Ascii.eqb c sep); [discriminate|].
  destruct (split sep s); discriminate.
Qed.

(** Splitting distributes over a separator. *)
Lemma split_app_sep (sep : ascii) (a b : string) :
  split sep (a ++ String sep b) = split sep a ++ split sep b.
Proof.
  induction a as [|c a IH]; simpl.
  - now rewrite Ascii.eqb_refl.
  - destruct (Ascii.eqb c sep).
    + now rewrite IH.
    + rewrite IH.
      pose proof (split_not_nil sep a) as Hne.
      destruct (split sep a) as [|x xs]; [contradiction|reflexivity].
Qed.

Lemma split_one_line (s : string) : one_line s = true -> split LF s = [s].
Proof.
  induction s as [|c s IH]; simpl; intro H; [reflexivity|].
  apply andb_true_iff in H as [Hc Hs].
  apply negb_true_iff in Hc. rewrite Hc, (IH Hs). reflexivity.
Qed.

Lemma split_pieces_one_line (s x : string) :
  In x (split LF s) -> one_line x = true.
Proof.
  revert x. induction s as [|c s IH]; simpl; intros x Hx.
  - destruct Hx as [<-|[]]. reflexivity.
  - destruct (Ascii.eqb c LF) eqn:Hc.
    + destruct Hx as [<-|Hx]; [reflexivity|now apply IH].
    + pose proof (split_not_nil LF s) as Hne.
      destruct (split LF s) as [|y ys]; [contradiction|].
      destruct Hx as [<-|Hx].
      * simpl. rewrite Hc. simpl. apply IH. now left.
      * apply IH. now right.
Qed.

Lemma one_line_app (a b : string) :
  one_line (a ++ b) = (one_line a && one_line b)%bool.
Proof.
  induction a as [|c a IH]; simpl; [reflexivity|].
  now rewrite IH, andb_assoc.
Qed.

Lemma entries_empty : entries "" = [].
Proof. reflexivity. Qed.

Lemma entries_app_nl (a b : string) :
  entries (a ++ nl ++ b) = entries a ++ entries b.
Proof.
  unfold entries, nl. simpl.
  now rewrite split_app_sep, flat_map_app.
Qed.

Lemma entries_one_line (s : string) :
  one_line s = true -> nonempty s = true -> entries s = [s].
Proof.
  intros H1 H2. unfold entries. rewrite (split_one_line s H1). simpl.
  now rewrite H2.
Qed.

Lemma entries_spec (raw e : string) :
  In e (entries raw) -> nonempty e = true /\ one_line e = true.
Proof.
  unfold entries. rewrite in_flat_map. intros [x [Hx He]].
  destruct (nonempty x) eqn:Hn; simpl in He; [|contradiction].
  destruct He as [<-|[]]. split; [assumption|].
  now apply (split_pieces_one_line raw).
Qed.

Lemma compacted_cons (x : string) (l : list string) :
  compacted (x :: l) = (nl ++ x ++ nl ++ compacted l)%string.
Proof.
  unfold compacted. simpl.
  destruct (flat_map (fun x0 : string => [""; x0]) l ++ [""]) eqn:E.
  - destruct (flat_map (fun x0 : string => [""; x0]) l); discriminate.
  - reflexivity.
Qed.

(** Reading a compacted file back gives the entries it was made of. *)
Lemma entries_compacted (l : list string) :
  (forall e, In e l -> nonempty e = true /\ one_line e = true) ->
  entries (compacted l) = l.
Proof.
  induction l as [|x l IH]; intro H; [reflexivity|].
  rewrite compacted_cons.
  change (nl ++ x ++ nl ++ compacted l)%string
    with ("" ++ nl ++ (x ++ nl ++ compacted l))%string.
  rewrite entries_app_nl, entries_app_nl, entries_empty.
  destruct (H x (or_introl eq_refl)) as [Hn Ho].
  rewrite (entries_one_line x Ho Hn). simpl. f_equal.
  apply IH. intros e He. apply H. now right.
Qed.

(** A compacted file has the layout of a file written by formatted [log]
    calls alone: every entry between two line feeds. *)
Lemma compacted_layout (l : list string) :
  compacted l = text_of (map (fun e => nl ++ e ++ nl)%string l).
Proof.
  induction l as [|x l IH]; [reflexivity|].
  rewrite compacted_cons, IH. cbn [map text_of fold_right].
  now rewrite !append_assoc.
Qed.

Lemma filter_idempotent {A} (f : A -> bool) (l : list A) :
  filter f (filter f l) = filter f l.
Proof.
  induction l as [|x l IH]; simpl; [reflexivity|].
  destruct (f x) eqn:E; simpl; [rewrite E, IH|]; auto.
Qed.

(** ** The handler on a given file *)

Section HandlerFacts.

Variable LocalTZA : Z -> Z.
Variable this : Logger.

Lemma getLogData_read (d : Fs.disk) (raw : string) :
  Fs.readFile d = inl raw -> getLogData this d = (d, Return (entries raw)).
Proof.
  intro H. unfold getLogData, bind, catch, readFile. rewrite H. reflexivity.
Qed.

Lemma getLogData_failed (d : Fs.disk) (code : Fs.errno) :
  Fs.readFile d = inr code ->
  getLogData this d = (d, Throw (TypeError "data.split is not a function")).
Proof.
  intro H. unfold getLogData, bind, catch, readFile. rewrite H. reflexivity.
Qed.

Lemma getLogData_disk (d d' : Fs.disk) (o : outcome (list string)) :
  getLogData this d = (d', o) -> d' = d.
Proof.
  destruct (Fs.readFile d) as [raw|code] eqn:E.
  - rewrite (getLogData_read d raw E). now intros [= <- _].
  - rewrite (getLogData_failed d code E). now intros [= <- _].
Qed.

Lemma writeFile_throw (text fl : string) (d d' : Fs.disk) (e : jsval) :
  writeFile text fl d = (d', Throw e) -> d' = d.
Proof.
  unfold writeFile. destruct (Fs.writeFile d text fl); now intros [= <- _].
Qed.

(** A handler that throws has not touched the file. *)
Lemma handler_throw_disk (t : task) (d d' : Fs.disk) (e : jsval) :
  handler LocalTZA this t d = (d', Throw e) -> d' = d.
Proof.
  destruct t as [text|cb date content|now]; unfold handler, bind, catch.
  - destruct (writeFile text (flag this) d) as [d1 [[]|e1]] eqn:W; simpl.
    + discriminate.
    + intros [= <- _]. now apply writeFile_throw in W.
  - destruct (getLogData this d) as [d1 [logs|e1]] eqn:G;
      apply getLogData_disk in G as ->.
    + destruct (negb (truthy content) && negb (truthy date))%bool;
        unfold call, ret; destruct cb as [f|];
        try destruct (f _ _); now intros [= <- _].
    + now intros [= <- _].
  - destruct (getLogData this d) as [d1 [logs|e1]] eqn:G;
      apply getLogData_disk in G as ->.
    + match goal with
      | |- context [writeFile ?x ?y d] =>
          destruct (writeFile x y d) as [d2 [[]|e2]] eqn:W
      end; simpl.
      * discriminate.
      * intros [= <- _]. now apply writeFile_throw in W.
    + now intros [= <- _].
Qed.

(** When every reading of the clock is [now], the pass over the entries
    is a plain filter. *)
Lemma clean_up_pass_const (now : Z) (k : nat) (logs : list string) :
  clean_up_pass LocalTZA this (fun _ => now) k logs =
  filter (clean_up_filter LocalTZA this now) logs.
Proof.
  revert k. induction logs as [|x logs IH]; intro k; [reflexivity|].
  cbn [clean_up_pass filter]. now rewrite IH.
Qed.

(** Compaction of a file that can be read and written, each entry with
    its own reading of the clock. *)
Lemma handler_clean_up_with_ok (clock : nat -> Z) (f : Fs.file) :
  Fs.readable f = true -> Fs.writable f = true ->
  handler LocalTZA this (clean_up_with clock) (Some f) =
  (Some {| Fs.data := compacted (clean_up_pass LocalTZA this clock 0
                                   (entries (Fs.data f)));
           Fs.readable := Fs.readable f;
           Fs.writable := Fs.writable f |},
   Return undefined).
Proof.
  intros Hr Hw. unfold handler.
  unfold bind at 1. rewrite (getLogData_read (Some f) (Fs.data f)).
  2:{ simpl. now rewrite Hr. }
  unfold bind, catch, writeFile, ret. simpl. rewrite Hw. reflexivity.
Qed.

Lemma handler_clean_up_with_failed (clock : nat -> Z) (d : Fs.disk) :
  accessible d = false \/ d = None ->
  fst (handler LocalTZA this (clean_up_with clock) d) = d.
Proof.
  intro H. destruct d as [f|].
  - destruct H as [H|H]; [|discriminate]. simpl in H.
    destruct (Fs.readable f) eqn:Hr.
    + destruct (Fs.writable f) eqn:Hw; [discriminate|].
      unfold handler. unfold bind at 1.
      rewrite (getLogData_read (Some f) (Fs.data f)).
      2:{ simpl. now rewrite Hr. }
      unfold bind, catch, writeFile, throw. simpl. rewrite Hw. reflexivity.
    + unfold handler. unfold bind at 1.
      rewrite (getLogData_failed (Some f) Fs.EACCES).
      2:{ simpl. now rewrite Hr. }
      reflexivity.
  - reflexivity.
Qed.

(** Compaction of a file that can be read and written. *)
Lemma handler_clean_up_ok (now : Z) (f : Fs.file) :
  Fs.readable f = true -> Fs.writable f = true ->
  handler LocalTZA this (clean_up_task now) (Some f) =
  (Some {| Fs.data := compacted (filter (clean_up_filter LocalTZA this now)
                                        (entries (Fs.data f)));
           Fs.readable := Fs.readable f;
           Fs.writable := Fs.writable f |},
   Return undefined).
Proof.
  intros Hr Hw. unfold clean_up_task.
  rewrite (handler_clean_up_with_ok _ f Hr Hw). now rewrite clean_up_pass_const.
Qed.

(** Compaction changes nothing when the file is missing or cannot be
    read or written. *)
Lemma handler_clean_up_failed (now : Z) (d : Fs.disk) :
  accessible d = false \/ d = None ->
  fst (handler LocalTZA this (clean_up_task now) d) = d.
Proof. apply handler_clean_up_with_failed. Qed.

(** Every link of a chain in a fulfilled state is fulfilled in turn:
    with the value of the handler, or with what it threw. *)
Lemma link_fulfilled (v : jsval) (t : task) (d : Fs.disk) :
  link LocalTZA this (Fulfilled v) t d =
  (fst (handler LocalTZA this t d),
   Fulfilled match snd (handler LocalTZA this t d) with
             | Return a => a
             | Throw e => e
             end).
Proof.
  unfold link, then_, catch, ret.
  destruct (handler LocalTZA this t d) as [d' [a|e]]; reflexivity.
Qed.

Lemma drain_prev (v w : jsval) (ts : list task) (d : Fs.disk) :
  drain LocalTZA this (Fulfilled v) ts d = drain LocalTZA this (Fulfilled w) ts d.
Proof.
  destruct ts as [|t ts]; [reflexivity|].
  cbn [drain]. now rewrite (link_fulfilled v), (link_fulfilled w).
Qed.

Lemma drain_cons (v : jsval) (t : task) (ts : list task) (d : Fs.disk) :
  drain LocalTZA this (Fulfilled v) (t :: ts) d =
  (fst (drain LocalTZA this (Fulfilled undefined) ts (fst (link LocalTZA this (Fulfilled undefined) t d))),
   snd (link LocalTZA this (Fulfilled undefined) t d) ::
   snd (drain LocalTZA this (Fulfilled undefined) ts (fst (link LocalTZA this (Fulfilled undefined) t d)))).
Proof.
  cbn [drain]. rewrite !link_fulfilled. cbn [fst snd].
  match goal with
  | |- context [drain _ _ (Fulfilled ?x) ts ?y] =>
      rewrite (drain_prev x undefined ts y)
  end.
  destruct (drain LocalTZA this (Fulfilled undefined) ts
              (fst (handler LocalTZA this t d))); reflexivity.
Qed.

Lemma drain_app (v : jsval) (a b : list task) (d : Fs.disk) :
  drain LocalTZA this (Fulfilled v) (a ++ b) d =
  (fst (drain LocalTZA this (Fulfilled undefined) b
          (fst (drain LocalTZA this (Fulfilled undefined) a d))),
   snd (drain LocalTZA this (Fulfilled undefined) a d) ++
   snd (drain LocalTZA this (Fulfilled undefined) b
          (fst (drain LocalTZA this (Fulfilled undefined) a d)))).
Proof.
  revert v d. induction a as [|t a IH]; intros v d.
  - simpl. rewrite (drain_prev v undefined).
    destruct (drain LocalTZA this (Fulfilled undefined) b d); reflexivity.
  - change ((t :: a) ++ b) with (t :: (a ++ b)).
    rewrite drain_cons, (drain_cons undefined t a), IH. reflexivity.
Qed.

Lemma drain_fulfilled (v : jsval) (ts : list task) (d : Fs.disk) :
  Forall is_fulfilled (snd (drain LocalTZA this (Fulfilled v) ts d)).
Proof.
  revert v d. induction ts as [|t ts IH]; intros v d.
  - constructor.
  - rewrite drain_cons. cbn [snd]. constructor.
    + rewrite link_fulfilled. exact I.
    + apply IH.
Qed.

Lemma drain_length (v : jsval) (ts : list task) (d : Fs.disk) :
  List.length (snd (drain LocalTZA this (Fulfilled v) ts d)) = List.length ts.
Proof.
  revert v d. induction ts as [|t ts IH]; intros v d; [reflexivity|].
  rewrite drain_cons. cbn [snd List.length]. now rewrite IH.
Qed.

End HandlerFacts.

(** ** Retention compaction *)

Section Compaction.

Variable LocalTZA : Z -> Z.

Lemma clean_up_pass_config (this this' : Logger) (clock : nat -> Z) (k : nat)
  (logs : list string) :
  date_cleanUp_regex this' = date_cleanUp_regex this ->
  log_max_age this' = log_max_age this ->
  clean_up_pass LocalTZA this' clock k logs = clean_up_pass LocalTZA this clock k logs.
Proof.
  intros Hre Hmax. revert k. induction logs as [|x logs IH]; intro k; [reflexivity|].
  cbn [clean_up_pass]. unfold reads_clock, clean_up_filter.
  now rewrite Hre, Hmax, !IH.
Qed.

(** The handler reads the flag, the compaction expression and the
    retention of its logger, and nothing else. *)
Lemma handler_config (this this' : Logger) (t : task) (d : Fs.disk) :
  flag this' = flag this ->
  date_cleanUp_regex this' = date_cleanUp_regex this ->
  log_max_age this' = log_max_age this ->
  handler LocalTZA this' t d = handler LocalTZA this t d.
Proof.
  intros Hf Hre Hmax. destruct t as [text|cb date content|clock]; unfold handler.
  - now rewrite Hf.
  - reflexivity.
  - unfold bind at 1 3.
    change (getLogData this' d) with (getLogData this d).
    destruct (getLogData this d) as [d1 [logs|e]]; [|reflexivity].
    now rewrite (clean_up_pass_config this this' clock 0 logs Hre Hmax).
Qed.

Lemma drain_config (this this' : Logger) (p : settled) (ts : list task)
  (d : Fs.disk) :
  flag this' = flag this ->
  date_cleanUp_regex this' = date_cleanUp_regex this ->
  log_max_age this' = log_max_age this ->
  drain LocalTZA this' p ts d = drain LocalTZA this p ts d.
Proof.
  intros Hf Hre Hmax.
  revert p d. induction ts as [|x ts IH]; intros p d; [reflexivity|].
  cbn [drain].
  assert (L : link LocalTZA this' p x d = link LocalTZA this p x d).
  { unfold link, then_, catch. destruct p; [|reflexivity].
    now rewrite (handler_config this this' x d Hf Hre Hmax). }
  rewrite L. destruct (link LocalTZA this p x d) as [d' s]. now rewrite IH.
Qed.

(** Chaining a link leaves the configuration the handler reads unchanged. *)
Lemma drain_chain (this : Logger) (t : task) (p : settled) (ts : list task)
  (d : Fs.disk) :
  drain LocalTZA (chain this t) p ts d = drain LocalTZA this p ts d.
Proof. now apply drain_config. Qed.

Lemma compacted_entries_kept (this : Logger) (now : Z) (f : Fs.file) :
  Fs.readable f = true -> Fs.writable f = true ->
  entries (contents (fst (handler LocalTZA this (clean_up_task now) (Some f)))) =
  filter (clean_up_filter LocalTZA this now) (entries (Fs.data f)).
Proof.
  intros Hr Hw. rewrite (handler_clean_up_ok LocalTZA this now f Hr Hw).
  cbn [fst contents Fs.data]. apply entries_compacted.
  intros e He. apply filter_In in He as [He _]. now apply entries_spec in He.
Qed.

Lemma clean_up_twice (this : Logger) (now : Z) (d : Fs.disk) :
  fst (handler LocalTZA this (clean_up_task now)
         (fst (handler LocalTZA this (clean_up_task now) d))) =
  fst (handler LocalTZA this (clean_up_task now) d).
Proof.
  destruct d as [f|].
  - destruct (Fs.readable f) eqn:Hr; [destruct (Fs.writable f) eqn:Hw|].
    + rewrite (handler_clean_up_ok LocalTZA this now f Hr Hw). cbn [fst].
      rewrite handler_clean_up_ok by assumption. cbn [fst Fs.data Fs.readable Fs.writable].
      rewrite entries_compacted.
      * now rewrite filter_idempotent.
      * intros e He. apply filter_In in He as [He _]. now apply entries_spec in He.
    + rewrite (handler_clean_up_failed LocalTZA this now (Some f)); [|left; simpl; now rewrite Hr, Hw].
      apply handler_clean_up_failed. left. simpl. now rewrite Hr, Hw.
    + rewrite (handler_clean_up_failed LocalTZA this now (Some f)); [|left; simpl; now rewrite Hr].
      apply handler_clean_up_failed. left. simpl. now rewrite Hr.
  - reflexivity.
Qed.

(** C9. Compaction is idempotent: whatever the file holds, or whether it
    exists at all, and whatever links were chained before, two [cleanUp()]
    calls in a row that read the same [Date.now()] leave the file exactly
    as the first one alone leaves it. *)
Theorem cleanUp_idempotent (this : Logger) (now : Z) (d : Fs.disk) :
  fst (run LocalTZA (cleanUp (cleanUp this now) now) d) =
  fst (run LocalTZA (cleanUp this now) d).
Proof.
  unfold run, cleanUp. rewrite !drain_chain.
  cbn [promise_chain chain].
  rewrite (drain_app LocalTZA this undefined (promise_chain this ++ [clean_up_task now])
             [clean_up_task now]).
  cbn [fst].
  rewrite (drain_app LocalTZA this undefined (promise_chain this) [clean_up_task now]).
  cbn [fst].
  rewrite !drain_cons. cbn [drain fst]. rewrite !link_fulfilled. cbn [fst].
  apply clean_up_twice.
Qed.

(** C7. The compacted file holds no entry whose timestamp the date
    expression cannot parse: every such entry is dropped, whatever the
    file contains and whatever the retention is. *)
Theorem unparseable_dropped (this : Logger) (now : Z) (f : Fs.file) (e : string) :
  Fs.readable f = true -> Fs.writable f = true ->
  exec (date_cleanUp_regex this) e = None ->
  ~ In e (entries (contents (fst (handler LocalTZA this (clean_up_task now) (Some f))))).
Proof.
  intros Hr Hw Hx. rewrite compacted_entries_kept by assumption.
  rewrite filter_In. intros [_ Hk]. unfold clean_up_filter in Hk.
  rewrite Hx in Hk. destruct (negb (nonempty e)); discriminate.
Qed.

End Compaction.

(** ** Queries *)

Section Queries.

Variable LocalTZA : Z -> Z.

Lemma call_returns (cb : option callback) (a b : jsval) (d : Fs.disk) :
  returns cb -> call cb a b d = (d, Return tt).
Proof.
  intro H. unfold call. destruct cb as [g|]; [|reflexivity].
  now rewrite (H g eq_refl).
Qed.

Lemma get_logs_filter_spec (date content : option string) (e : string) :
  nonempty e = true ->
  (truthy content || truthy date)%bool = true ->
  get_logs_filter date content e =
  (contains_filter content e || contains_filter date e)%bool.
Proof.
  intros Hn Hs. unfold get_logs_filter, contains_filter. rewrite Hn. cbn [negb].
  destruct content as [c|], date as [dt|]; cbn [truthy] in *;
    try destruct (nonempty c); try destruct (nonempty dt); cbn in *;
    try discriminate;
    try destruct (includes e c); try destruct (includes e dt); reflexivity.
Qed.

(** C3. On a readable file, a query with at least one filter supplied
    resolves with the entries of the file, in file order, that contain the
    content filter or contain the date filter; a query with no filter
    resolves with all the entries.  A filter is supplied when it is a
    non-empty string. *)
Theorem query_filter (this : Logger) (cb : option callback)
  (date content : option string) (f : Fs.file) :
  Fs.readable f = true ->
  returns cb ->
  exists result,
    handler LocalTZA this (get_logs_task cb date content) (Some f) =
      (Some f, Return (Arr result)) /\
    ((truthy content || truthy date)%bool = true ->
     result = filter (fun e => (contains_filter content e || contains_filter date e)%bool)
                     (entries (Fs.data f)) /\
     forall e, In e result <->
               In e (entries (Fs.data f)) /\
               (contains_filter content e = true \/ contains_filter date e = true)) /\
    ((truthy content || truthy date)%bool = false ->
     result = entries (Fs.data f)).
Proof.
  intros Hr Hcb.
  assert (G : getLogData this (Some f) = (Some f, Return (entries (Fs.data f)))).
  { apply getLogData_read. simpl. now rewrite Hr. }
  assert (E : filter (get_logs_filter date content) (entries (Fs.data f)) =
              if (truthy content || truthy date)%bool
              then filter (fun e => (contains_filter content e || contains_filter date e)%bool)
                          (entries (Fs.data f))
              else entries (Fs.data f)).
  { destruct (truthy content || truthy date)%bool eqn:S.
    - apply filter_ext_in. intros e He.
      apply get_logs_filter_spec; [now apply entries_spec in He | assumption].
    - apply orb_false_iff in S as [Sc Sd].
      rewrite <- (filter_ext_in (fun _ => true)).
      + clear. induction (entries (Fs.data f)) as [|x l IH]; simpl; congruence.
      + intros e He. apply entries_spec in He as [Hn _].
        unfold get_logs_filter. now rewrite Hn, Sc, Sd. }
  unfold handler, bind. rewrite G.
  destruct (truthy content || truthy date)%bool eqn:S.
  - assert (S' : (negb (truthy content) && negb (truthy date))%bool = false).
    { destruct (truthy content), (truthy date); simpl in *; congruence. }
    rewrite S', E.
    rewrite call_returns by assumption.
    eexists. split; [reflexivity|]. split; [|discriminate].
    intros _. split; [reflexivity|].
    intro e. rewrite filter_In, orb_true_iff. reflexivity.
  - assert (S' : (negb (truthy content) && negb (truthy date))%bool = true).
    { destruct (truthy content), (truthy date); simpl in *; congruence. }
    rewrite S'.
    rewrite call_returns by assumption.
    eexists. split; [reflexivity|]. split; [discriminate|]. reflexivity.
Qed.

End Queries.

(** ** The promise chain *)

Section Chain.

Variable LocalTZA : Z -> Z.

(** C6. A task whose handler throws settles its own link with the error
    and leaves the file as it found it; the links chained after it all
    run, are all fulfilled, and settle exactly as they do in the chain
    without the failing task. *)
Theorem error_isolation (this : Logger) (pre post : list task) (t : task)
  (d : Fs.disk) (e : jsval) :
  snd (handler LocalTZA this t
         (fst (drain LocalTZA this (Fulfilled undefined) pre d))) = Throw e ->
  let before := drain LocalTZA this (Fulfilled undefined) pre d in
  let after := drain LocalTZA this (Fulfilled undefined) post (fst before) in
  drain LocalTZA this (Fulfilled undefined) (pre ++ t :: post) d =
    (fst after, snd before ++ Fulfilled e :: snd after) /\
  drain LocalTZA this (Fulfilled undefined) (pre ++ post) d =
    (fst after, snd before ++ snd after) /\
  Forall is_fulfilled (snd after) /\
  List.length (snd after) = List.length post.
Proof.
  intros He before after. subst before after.
  repeat split.
  - rewrite drain_app, drain_cons, link_fulfilled. cbn [fst snd].
    rewrite He.
    destruct (handler LocalTZA this t
                (fst (drain LocalTZA this (Fulfilled undefined) pre d)))
      as [d' o] eqn:Hh.
    cbn [snd] in He. subst o. apply handler_throw_disk in Hh. subst d'.
    reflexivity.
  - apply drain_app.
  - apply drain_fulfilled.
  - apply drain_length.
Qed.


End Chain.

(** ** Appending entries *)

Section Appending.

Variable LocalTZA : Z -> Z.

Lemma submit_spec (calls : list (string * bool * DateObj)) (this : Logger) :
  promise_chain (submit this calls) =
    promise_chain this ++ map (fun c => log_task (written this c)) calls /\
  flag (submit this calls) = flag this /\
  date_cleanUp_regex (submit this calls) = date_cleanUp_regex this /\
  log_max_age (submit this calls) = log_max_age this.
Proof.
  revert this. induction calls as [|c calls IH]; intro this.
  - cbn. now rewrite app_nil_r.
  - cbn [submit fold_left]. fold (submit (log this (fst (fst c)) (snd (fst c)) (snd c)) calls).
    destruct (IH (log this (fst (fst c)) (snd (fst c)) (snd c))) as (H1 & H2 & H3 & H4).
    rewrite H1, H2, H3, H4. cbn [log chain promise_chain flag date_cleanUp_regex log_max_age map].
    rewrite <- app_assoc. repeat split; reflexivity.
Qed.

Lemma write_append (d : Fs.disk) (text : string) :
  accessible d = true ->
  exists f, Fs.writeFile d text "a" = inl (Some f) /\
            Fs.readable f = true /\ Fs.writable f = true /\
            Fs.data f = (contents d ++ text)%string.
Proof.
  intro H. destruct d as [f|]; cbn in *.
  - apply andb_true_iff in H as [Hr Hw]. rewrite Hw.
    eexists. split; [reflexivity|]. cbn. auto.
  - eexists. split; [reflexivity|]. cbn. auto.
Qed.

(** In append mode the links of [log] calls add their texts to the file
    one after the other, in chain order. *)
Lemma drain_logs (this : Logger) (texts : list string) (v : jsval) (d : Fs.disk) :
  flag this = "a" -> accessible d = true ->
  accessible (fst (drain LocalTZA this (Fulfilled v) (map log_task texts) d)) = true /\
  contents (fst (drain LocalTZA this (Fulfilled v) (map log_task texts) d)) =
    (contents d ++ text_of texts)%string /\
  snd (drain LocalTZA this (Fulfilled v) (map log_task texts) d) =
    map (fun _ => Fulfilled undefined) texts /\
  (texts <> [] ->
   fst (drain LocalTZA this (Fulfilled v) (map log_task texts) d) <> None).
Proof.
  intros Hf. revert v d. induction texts as [|x texts IH]; intros v d Hd.
  - cbn. rewrite append_empty_r. repeat split; auto; congruence.
  - cbn [map]. rewrite drain_cons, link_fulfilled. cbn [fst snd].
    destruct (write_append d x Hd) as (f & Hw & Hr & Hw' & Hdata).
    assert (Hh : handler LocalTZA this (log_task x) d = (Some f, Return undefined)).
    { unfold handler, bind, catch, writeFile, ret. rewrite Hf, Hw. reflexivity. }
    rewrite Hh. cbn [fst snd].
    assert (Hacc : accessible (Some f) = true) by (cbn; now rewrite Hr, Hw').
    destruct (IH undefined (Some f) Hacc) as (I1 & I2 & I3 & I4).
    repeat split.
    + exact I1.
    + rewrite I2. cbn [contents text_of fold_right]. rewrite Hdata.
      now rewrite append_assoc.
    + now rewrite I3.
    + intros _. destruct texts as [|y texts]; [cbn; discriminate|].
      apply I4. discriminate.
Qed.

Lemma one_line_uint (u : Decimal.uint) : one_line (NilEmpty.string_of_uint u) = true.
Proof. induction u; cbn; auto. Qed.

Lemma one_line_ToString (n : Z) : one_line (ToString n) = true.
Proof.
  unfold ToString. destruct (Z.to_int n) as [u|u]; cbn;
    destruct u; cbn; auto using one_line_uint.
Qed.

Lemma one_line_pad (n : Z) : one_line (pad n) = true.
Proof.
  unfold pad. destruct (n <? 10); cbn; apply one_line_ToString.
Qed.

Lemma format_entry_line (this : Logger) (m : string) (c : DateObj) :
  format this m c = (nl ++ entry_line m c ++ nl)%string.
Proof.
  unfold format, entry_line. cbn zeta.
  repeat (rewrite ?append_assoc; cbn [String.append]).
  reflexivity.
Qed.

Lemma entry_line_one_line (m : string) (c : DateObj) :
  one_line m = true ->
  one_line (entry_line m c) = true /\ nonempty (entry_line m c) = true.
Proof.
  intro Hm. split; [|reflexivity].
  unfold entry_line.
  repeat (rewrite one_line_app; apply andb_true_iff; split);
    auto using one_line_pad, one_line_ToString.
Qed.

Lemma entries_formatted (this : Logger) (calls : list (string * bool * DateObj))
  (a : string) :
  (forall c, In c calls ->
     (auto_format this || snd (fst c))%bool = true /\ one_line (fst (fst c)) = true) ->
  entries (a ++ text_of (map (written this) calls)) =
  entries a ++ map (fun c => entry_line (fst (fst c)) (snd c)) calls.
Proof.
  revert a. induction calls as [|c calls IH]; intros a H.
  - cbn. now rewrite append_empty_r, app_nil_r.
  - destruct (H c (or_introl eq_refl)) as [Hfmt Hone].
    cbn [map text_of fold_right]. fold (text_of (map (written this) calls)).
    unfold written at 1. rewrite Hfmt, format_entry_line.
    rewrite !append_assoc. rewrite entries_app_nl, entries_app_nl.
    destruct (entry_line_one_line (fst (fst c)) (snd c) Hone) as [H1 H2].
    rewrite (entries_one_line _ H1 H2).
    specialize (IH EmptyString). cbn [String.append] in IH.
    rewrite IH, entries_empty; [reflexivity|].
    intros c' Hc'. apply H. now right.
Qed.

(** C1, as it holds on the code. On an append-mode logger with nothing chained yet and a
    path that is free or readable and writable, [log] calls append their
    texts to the file in the order of the calls, whether formatted or not;
    and when every call is formatted and its message has no line feed, a
    following [getLogs()] without filters resolves with the entries already
    in the file followed by exactly one entry per call, in call order. *)
Theorem logs_in_order (this : Logger) (calls : list (string * bool * DateObj))
  (d : Fs.disk) :
  flag this = "a" -> promise_chain this = [] -> accessible d = true ->
  calls <> [] \/ d <> None ->
  let q := getLogs (submit this calls) None None None in
  let out := run LocalTZA (fst q) d in
  contents (fst out) = (contents d ++ text_of (map (written this) calls))%string /\
  ((forall c, In c calls ->
      (auto_format this || snd (fst c))%bool = true /\ one_line (fst (fst c)) = true) ->
   await (snd out) (snd q) =
   Some (Fulfilled (Arr (entries (contents d) ++
                         map (fun c => entry_line (fst (fst c)) (snd c)) calls)))).
Proof.
  intros Hf Hpc Hd Hne q out. subst q out.
  destruct (submit_spec calls this) as (S1 & S2 & S3 & S4).
  rewrite Hpc in S1. cbn [app] in S1.
  cbn [getLogs fst snd]. unfold run. rewrite drain_chain.
  cbn [promise_chain chain].
  rewrite (drain_config LocalTZA this (submit this calls)) by assumption.
  rewrite S1, length_map.
  rewrite <- (map_map (written this) log_task).
  rewrite drain_app.
  destruct (drain_logs this (map (written this) calls) undefined d Hf Hd)
    as (D1 & D2 & D3 & D4).
  set (d1 := fst (drain LocalTZA this (Fulfilled undefined)
                    (map log_task (map (written this) calls)) d)) in *.
  assert (Hread : Fs.readFile d1 = inl (contents d1)).
  { destruct d1 as [f1|] eqn:E1.
    - cbn in D1. apply andb_true_iff in D1 as [Hr _]. cbn. now rewrite Hr.
    - destruct Hne as [Hne|Hne].
      + exfalso. apply D4; [|reflexivity]. destruct calls; [congruence|discriminate].
      + exfalso. destruct calls as [|c calls].
        * cbn in E1. congruence.
        * apply D4; [discriminate|reflexivity]. }
  assert (Hh : handler LocalTZA this (get_logs_task None None None) d1 =
               (d1, Return (Arr (entries (contents d1))))).
  { unfold handler, bind. rewrite (getLogData_read this d1 _ Hread). reflexivity. }
  rewrite drain_cons, link_fulfilled, Hh. cbn [fst snd drain].
  split; [exact D2|].
  intro Hall. unfold await.
  rewrite nth_error_app2 by (rewrite D3, !length_map; lia).
  rewrite D3, !length_map, Nat.sub_diag. cbn [nth_error].
  rewrite D2. now rewrite (entries_formatted this calls (contents d) Hall).
Qed.

End Appending.

(** ** The backtracking matcher and the meaning of the expressions *)

Section MatcherFacts.

Context {R : Type}.

Lemma forallb_string_app (p : ascii -> bool) (a b : string) :
  forallb p (list_ascii_of_string (a ++ b)) =
  (forallb p (list_ascii_of_string a) && forallb p (list_ascii_of_string b))%bool.
Proof.
  induction a as [|c a IH]; cbn; [reflexivity|].
  now rewrite IH, andb_assoc.
Qed.

Lemma length_string_app (a b : string) :
  String.length (a ++ b) = (String.length a + String.length b)%nat.
Proof.
  induction a as [|c a IH]; cbn; [reflexivity|]. now rewrite IH.
Qed.

Lemma strip_app (l s : string) : strip l (l ++ s) = Some s.
Proof.
  induction l as [|c l IH]; cbn; [reflexivity|].
  now rewrite Ascii.eqb_refl.
Qed.

Lemma strip_inv (l s s' : string) : strip l s = Some s' -> s = (l ++ s')%string.
Proof.
  revert s. induction l as [|c l IH]; intros s H; cbn in *.
  - now inversion H.
  - destruct s as [|b s]; [discriminate|].
    destruct (Ascii.eqb c b) eqn:E; [|discriminate].
    apply Ascii.eqb_eq in E. subst b. now rewrite (IH s H).
Qed.

Lemma rep_sound (p : ascii -> bool) (hi lo : nat) (acc s : string)
  (caps : captures) (k : @cont R) (x : R) :
  rep p lo hi acc s caps k = Some x ->
  exists t s', s = (t ++ s')%string /\
               (lo <= String.length t <= hi)%nat /\
               forallb p (list_ascii_of_string t) = true /\
               k (acc ++ t)%string s' caps = Some x.
Proof.
  revert lo acc s.
  induction hi as [|hi IH]; intros lo acc s H.
  - cbn in H. destruct lo; [|discriminate].
    exists EmptyString, s. rewrite (append_empty_r acc). cbn. repeat split; auto.
  - cbn [rep] in H. destruct s as [|c s].
    + destruct lo; [|discriminate].
      exists EmptyString, EmptyString. rewrite (append_empty_r acc). cbn.
      repeat split; auto; lia.
    + destruct (p c) eqn:Hp.
      * destruct (rep p (Nat.pred lo) hi (acc ++ String c "") s caps k) eqn:E.
        -- cbn in H. inversion H; subst r.
           destruct (IH _ _ _ E) as (t & s' & -> & Hlen & Hall & Hk).
           exists (String c t), s'. cbn. rewrite Hp, Hall.
           rewrite append_assoc in Hk. cbn in Hk.
           repeat split; auto; lia.
        -- cbn in H. destruct lo; [|discriminate].
           exists EmptyString, (String c s). rewrite (append_empty_r acc). cbn.
           repeat split; auto; lia.
      * destruct lo; [|discriminate].
        exists EmptyString, (String c s). rewrite (append_empty_r acc). cbn.
        repeat split; auto; lia.
Qed.

Lemma rep_complete (p : ascii -> bool) (t : string) :
  forall (lo hi : nat) (acc s' : string) (caps : captures) (k : @cont R),
  (lo <= String.length t <= hi)%nat ->
  forallb p (list_ascii_of_string t) = true ->
  (exists x, k (acc ++ t)%string s' caps = Some x) ->
  exists y, rep p lo hi acc (t ++ s')%string caps k = Some y.
Proof.
  induction t as [|c t IH]; intros lo hi acc s' caps k Hlen Hall [x Hk].
  - cbn in Hlen. assert (lo = O) by lia. subst lo.
    rewrite append_empty_r in Hk. cbn [String.append].
    destruct hi; cbn [rep]; [eauto|].
    destruct s' as [|c s']; [eauto|].
    destruct (p c); [|eauto].
    destruct (rep p (Nat.pred 0) hi (acc ++ String c "") s' caps k); cbn; eauto.
  - cbn in Hlen, Hall. apply andb_true_iff in Hall as [Hc Hall].
    destruct hi as [|hi]; [lia|]. cbn [String.append rep]. rewrite Hc.
    destruct (IH (Nat.pred lo) hi (acc ++ String c "")%string s' caps k) as [y Hy].
    + lia.
    + assumption.
    + exists x. now rewrite append_assoc.
    + rewrite Hy. cbn. eauto.
Qed.

(** Whatever the matcher returns comes from a match of the expression. *)
Lemma backtrack_sound (r : regex) :
  forall (s : string) (c : captures) (k : @cont R) (x : R),
  backtrack r s c k = Some x ->
  exists t s' c', s = (t ++ s')%string /\ Matches r t c c' /\ k t s' c' = Some x.
Proof.
  induction r as [p|l|p lo hi|r1 IH1 r2 IH2|r IH|i r IH]; intros s c k x H; cbn [backtrack] in H.
  - destruct s as [|a s]; [discriminate|].
    destruct (p a) eqn:Hp; [|discriminate].
    exists (String a ""), s, c. repeat split; auto. now constructor.
  - destruct (strip l s) as [s'|] eqn:E; [|discriminate].
    exists l, s', c. repeat split; auto using strip_inv. constructor.
  - apply rep_sound in H as (t & s' & -> & Hlen & Hall & Hk).
    exists t, s', c. repeat split; auto. now constructor.
  - apply IH1 in H as (t1 & s1 & c1 & -> & M1 & H).
    apply IH2 in H as (t2 & s2 & c2 & -> & M2 & H).
    exists (t1 ++ t2)%string, s2, c2. rewrite append_assoc.
    repeat split; auto. econstructor; eauto.
  - destruct (backtrack r s c k) as [y|] eqn:E; cbn in H.
    + inversion H; subst y.
      apply IH in E as (t & s' & c' & -> & M & Hk).
      exists t, s', c'. repeat split; auto. now constructor.
    + exists EmptyString, s, c. repeat split; auto. apply MOptNone.
  - apply IH in H as (t & s' & c' & -> & M & Hk).
    exists t, s', ((i, t) :: c'). repeat split; auto. now constructor.
Qed.

(** Whenever the expression has a match after which the continuation
    succeeds, the matcher returns something. *)
Lemma backtrack_complete (r : regex) (t : string) (c c' : captures) :
  Matches r t c c' ->
  forall (s' : string) (k : @cont R),
  (exists x, k t s' c' = Some x) ->
  exists y, backtrack r (t ++ s')%string c k = Some y.
Proof.
  induction 1 as [p a c Hp|l c|p lo hi t c Hlen Hall|r1 r2 t1 t2 c c1 c2 M1 IH1 M2 IH2
                  |r t c c' M IH|r c|i r t c c' M IH];
    intros s' k [x Hk]; cbn [backtrack].
  - cbn. rewrite Hp. eauto.
  - rewrite strip_app. eauto.
  - apply rep_complete; eauto.
  - rewrite append_assoc. apply IH1. apply IH2. eauto.
  - destruct (IH s' k) as [y Hy]; [eauto|]. rewrite Hy. cbn. eauto.
  - cbn [String.append]. destruct (backtrack r s' c k); cbn; eauto.
  - apply IH. eauto.
Qed.

End MatcherFacts.

Lemma test_complete (r : regex) (t s' : string) (c' : captures) :
  Matches r t [] c' -> test r (t ++ s') = true.
Proof.
  intro M. unfold test, exec.
  destruct (backtrack_complete r t [] c' M s' (fun t0 _ c0 => Some (t0, c0))) as [y Hy];
    [eauto|]. now rewrite Hy.
Qed.

Lemma full_match_sound (r : regex) (s : string) :
  full_match r s = true -> exists c', Matches r s [] c'.
Proof.
  unfold full_match.
  destruct (backtrack r s [] _) as [u|] eqn:E; [|discriminate]. intros _.
  apply backtrack_sound in E as (t & s' & c' & -> & M & Hk).
  destruct s'; [|discriminate]. rewrite append_empty_r. eauto.
Qed.

Lemma Matches_Cat_inv (r1 r2 : regex) (t : string) (c c' : captures) :
  Matches (Cat r1 r2) t c c' ->
  exists t1 t2 c1, t = (t1 ++ t2)%string /\ Matches r1 t1 c c1 /\ Matches r2 t2 c1 c'.
Proof. inversion 1; subst; eauto 6. Qed.

Lemma Matches_Rep_inv (p : ascii -> bool) (lo hi : nat) (t : string) (c c' : captures) :
  Matches (Rep p lo hi) t c c' ->
  c' = c /\ (lo <= String.length t <= hi)%nat /\
  forallb p (list_ascii_of_string t) = true.
Proof. inversion 1; subst; auto. Qed.

Lemma Matches_Lit_inv (l t : string) (c c' : captures) :
  Matches (Lit l) t c c' -> t = l /\ c' = c.
Proof. inversion 1; subst; auto. Qed.

(** ** Validation of the date filter *)

Lemma Matches_Cat_intro (r1 r2 : regex) (t t1 t2 : string) (c c1 c2 : captures) :
  Matches r1 t1 c c1 -> Matches r2 t2 c1 c2 -> t = (t1 ++ t2)%string ->
  Matches (Cat r1 r2) t c c2.
Proof. intros M1 M2 ->. econstructor; eauto. Qed.

(** A string that conforms to the pattern of the specification starts
    with a two-digit day, a two-digit month and a four-digit year
    separated by the date delimiter. *)
Lemma conforms_date_part (dd td s : string) :
  conforms dd td s = true ->
  exists D M Y rest,
    s = (D ++ dd ++ M ++ dd ++ Y ++ rest)%string /\
    String.length D = 2%nat /\ forallb digit (list_ascii_of_string D) = true /\
    String.length M = 2%nat /\ forallb digit (list_ascii_of_string M) = true /\
    String.length Y = 4%nat /\ forallb digit (list_ascii_of_string Y) = true.
Proof.
  intro H. apply full_match_sound in H as [c' H].
  unfold spec_date_pattern, cat_all in H. cbn [fold_right] in H.
  apply Matches_Cat_inv in H as (D & t1 & c1 & -> & HD & H).
  apply Matches_Cat_inv in H as (l1 & t2 & c2 & -> & Hl1 & H).
  apply Matches_Cat_inv in H as (M & t3 & c3 & -> & HM & H).
  apply Matches_Cat_inv in H as (l2 & t4 & c4 & -> & Hl2 & H).
  apply Matches_Cat_inv in H as (Y & rest & c5 & -> & HY & H).
  apply Matches_Rep_inv in HD as (_ & HDl & HDd).
  apply Matches_Rep_inv in HM as (_ & HMl & HMd).
  apply Matches_Rep_inv in HY as (_ & HYl & HYd).
  apply Matches_Lit_inv in Hl1 as [-> _].
  apply Matches_Lit_inv in Hl2 as [-> _].
  exists D, M, Y, rest. repeat split; auto; lia.
Qed.

(** A literal delimiter pasted into a pattern matches itself. *)
Lemma pasted_literal (s : string) :
  literal_delimiter s = true -> pasted s = Lit s.
Proof.
  intro H. unfold pasted. destruct (String.eqb_spec s ".") as [->|_];
    [discriminate|reflexivity].
Qed.

(** The date expression of the logger accepts every string that starts
    with such a date. *)
Lemma date_regex_accepts (dd td D M Y rest : string) :
  literal_delimiter dd = true ->
  String.length D = 2%nat -> forallb digit (list_ascii_of_string D) = true ->
  String.length M = 2%nat -> forallb digit (list_ascii_of_string M) = true ->
  String.length Y = 4%nat -> forallb digit (list_ascii_of_string Y) = true ->
  test (make_date_regex dd td) (D ++ dd ++ M ++ dd ++ Y ++ rest) = true.
Proof.
  intros Hdd HDl HDd HMl HMd HYl HYd.
  assert (M0 : Matches (make_date_regex dd td) (D ++ dd ++ M ++ dd ++ Y) [] []).
  { unfold make_date_regex, cat_all. rewrite (pasted_literal dd Hdd).
    cbn [fold_right].
    eapply (Matches_Cat_intro _ _ _ ""); [apply MOptNone| |reflexivity].
    eapply (Matches_Cat_intro _ _ _ D); [apply MRep; [lia|assumption]| |reflexivity].
    eapply (Matches_Cat_intro _ _ _ dd); [apply MLit| |reflexivity].
    eapply (Matches_Cat_intro _ _ _ M); [apply MRep; [lia|assumption]| |reflexivity].
    eapply (Matches_Cat_intro _ _ _ dd); [apply MLit| |reflexivity].
    eapply (Matches_Cat_intro _ _ _ Y ""); [apply MRep; [lia|assumption]| |now rewrite append_empty_r].
    eapply (Matches_Cat_intro _ _ _ "" ""); [apply MOptNone| |reflexivity].
    eapply (Matches_Cat_intro _ _ _ "" ""); [apply MOptNone|apply MLit|reflexivity]. }
  replace (D ++ dd ++ M ++ dd ++ Y ++ rest)%string
    with ((D ++ dd ++ M ++ dd ++ Y) ++ rest)%string
    by (now rewrite !append_assoc).
  now apply (test_complete _ _ _ []).
Qed.

(** With literal delimiters, every date that conforms to the pattern of
    the specification passes the date check. *)
Lemma conforming_date_accepted (dd td date : string) :
  literal_delimiter dd = true -> literal_delimiter td = true ->
  conforms dd td date = true ->
  test (make_date_regex dd td) date = true.
Proof.
  intros Hdd _ Hc.
  destruct (conforms_date_part dd td date Hc)
    as (D & M & Y & rest & -> & HDl & HDd & HMl & HMd & HYl & HYd).
  now apply date_regex_accepts.
Qed.

(** ** Reading back what the formatter writes *)

Lemma rep_greedy {R : Type} (p : ascii -> bool) (t : string) :
  forall (lo hi : nat) (acc s' : string) (caps : captures) (k : @cont R) (x : R),
  forallb p (list_ascii_of_string t) = true ->
  (lo <= String.length t <= hi)%nat ->
  String.length t = hi \/
    match s' with String c _ => p c = false | EmptyString => True end ->
  k (acc ++ t)%string s' caps = Some x ->
  rep p lo hi acc (t ++ s')%string caps k = Some x.
Proof.
  induction t as [|c t IH]; intros lo hi acc s' caps k x Hall Hlen Hend Hk.
  - cbn in Hlen. assert (lo = O) by lia. subst lo.
    rewrite append_empty_r in Hk. cbn [String.append].
    destruct hi; cbn [rep]; [assumption|].
    destruct Hend as [Hend|Hend]; [discriminate|].
    destruct s' as [|c s']; [assumption|]. now rewrite Hend.
  - cbn in Hlen, Hall. apply andb_true_iff in Hall as [Hc Hall].
    destruct hi as [|hi]; [lia|]. cbn [String.append rep]. rewrite Hc.
    rewrite (IH (Nat.pred lo) hi (acc ++ String c "")%string s' caps k x); auto.
    + lia.
    + destruct Hend as [Hend|Hend]; [left; cbn in Hend; lia | now right].
    + now rewrite append_assoc.
Qed.

Lemma bounded_check (P : Z -> bool) (N : Z) :
  forallb P (map Z.of_nat (List.seq 0 (Z.to_nat N))) = true ->
  forall n, 0 <= n < N -> P n = true.
Proof.
  intros H n Hn. rewrite forallb_forall in H. apply H.
  rewrite in_map_iff. exists (Z.to_nat n). split; [lia|].
  apply in_seq. lia.
Qed.

(** A padded field below 100 is two digits that read back as the field. *)
Lemma pad_digits (n : Z) :
  0 <= n <= 99 ->
  String.length (pad n) = 2%nat /\
  forallb digit (list_ascii_of_string (pad n)) = true /\
  ToNumber (pad n) = n.
Proof.
  intro Hn.
  assert (H : ((Nat.eqb (String.length (pad n)) 2) &&
               forallb digit (list_ascii_of_string (pad n)) &&
               (ToNumber (pad n) =? n))%bool = true).
  { apply (bounded_check
             (fun n => ((Nat.eqb (String.length (pad n)) 2) &&
                        forallb digit (list_ascii_of_string (pad n)) &&
                        (ToNumber (pad n) =? n))%bool) 100);
      [vm_compute; reflexivity | lia]. }
  apply andb_true_iff in H as [H H3]. apply andb_true_iff in H as [H1 H2].
  apply Nat.eqb_eq in H1. apply Z.eqb_eq in H3. auto.
Qed.

(** A year from 1000 to 9999 is written with four digits. *)
Lemma year_digits (y : Z) :
  1000 <= y <= 9999 ->
  String.length (ToString y) = 4%nat /\
  forallb digit (list_ascii_of_string (ToString y)) = true /\
  ToNumber (ToString y) = y.
Proof.
  intro Hy.
  assert (H : ((y <? 1000) ||
               ((Nat.eqb (String.length (ToString y)) 4) &&
                forallb digit (list_ascii_of_string (ToString y)) &&
                (ToNumber (ToString y) =? y)))%bool = true).
  { apply (bounded_check
             (fun y => ((y <? 1000) ||
                        ((Nat.eqb (String.length (ToString y)) 4) &&
                         forallb digit (list_ascii_of_string (ToString y)) &&
                         (ToNumber (ToString y) =? y)))%bool) 10000);
      [vm_compute; reflexivity | lia]. }
  apply orb_true_iff in H as [H|H]; [apply Z.ltb_lt in H; lia|].
  apply andb_true_iff in H as [H H3]. apply andb_true_iff in H as [H1 H2].
  apply Nat.eqb_eq in H1. apply Z.eqb_eq in H3. auto.
Qed.

(** The millisecond is written unpadded: one to three digits. *)
Lemma millisecond_digits (n : Z) :
  0 <= n <= 999 ->
  (1 <= String.length (ToString n) <= 3)%nat /\
  forallb digit (list_ascii_of_string (ToString n)) = true /\
  ToNumber (ToString n) = n.
Proof.
  intro Hn.
  assert (H : ((Nat.leb 1 (String.length (ToString n))) &&
               (Nat.leb (String.length (ToString n)) 3) &&
               forallb digit (list_ascii_of_string (ToString n)) &&
               (ToNumber (ToString n) =? n))%bool = true).
  { apply (bounded_check
             (fun n => ((Nat.leb 1 (String.length (ToString n))) &&
                        (Nat.leb (String.length (ToString n)) 3) &&
                        forallb digit (list_ascii_of_string (ToString n)) &&
                        (ToNumber (ToString n) =? n))%bool) 1000);
      [vm_compute; reflexivity | lia]. }
  apply andb_true_iff in H as [H H4]. apply andb_true_iff in H as [H H3].
  apply andb_true_iff in H as [H1 H2].
  apply Nat.leb_le in H1, H2. apply Z.eqb_eq in H4. auto.
Qed.

Lemma or_else_Some {R : Type} (a b : option R) (x : R) :
  a = Some x -> or_else a b = Some x.
Proof. now intros ->. Qed.

Ltac literal_step :=
  cbn [String.append strip]; rewrite ?Ascii.eqb_refl; cbn [strip]; cbv beta.

Ltac digits_step Hlen Hdig :=
  apply rep_greedy;
  [exact Hdig | rewrite Hlen; lia | left; exact Hlen | cbv beta; cbn [String.append]].

(** The compaction expression with the default delimiters on a line that
    starts with a timestamp in the layout of the formatter: the seven
    fields are captured. *)
Lemma exec_timestamp (D M Y h mi se ms msg : string) :
  String.length D = 2%nat -> forallb digit (list_ascii_of_string D) = true ->
  String.length M = 2%nat -> forallb digit (list_ascii_of_string M) = true ->
  String.length Y = 4%nat -> forallb digit (list_ascii_of_string Y) = true ->
  String.length h = 2%nat -> forallb digit (list_ascii_of_string h) = true ->
  String.length mi = 2%nat -> forallb digit (list_ascii_of_string mi) = true ->
  String.length se = 2%nat -> forallb digit (list_ascii_of_string se) = true ->
  (1 <= String.length ms <= 3)%nat -> forallb digit (list_ascii_of_string ms) = true ->
  exists whole,
    exec (make_date_cleanUp_regex "/" ":")
      ("[" ++ D ++ "/" ++ M ++ "/" ++ Y ++ " " ++ h ++ ":" ++ mi ++ ":" ++ se ++
       "." ++ ms ++ "] - " ++ msg) =
    Some (whole, [(7%nat, ms); (6%nat, se); (5%nat, mi); (4%nat, h);
                  (3%nat, Y); (2%nat, M); (1%nat, D)]).
Proof.
  intros HD1 HD2 HM1 HM2 HY1 HY2 Hh1 Hh2 Hmi1 Hmi2 Hse1 Hse2 Hms1 Hms2. eexists.
  unfold exec, make_date_cleanUp_regex, cat_all. cbn [fold_right backtrack].
  apply or_else_Some. literal_step.
  digits_step HD1 HD2. literal_step.
  digits_step HM1 HM2. literal_step.
  digits_step HY1 HY2.
  apply or_else_Some. change (space " ") with true. cbv iota beta.
  apply or_else_Some.
  digits_step Hh1 Hh2. literal_step.
  digits_step Hmi1 Hmi2. literal_step.
  digits_step Hse1 Hse2.
  change (any ".") with true. cbv iota beta.
  apply rep_greedy;
    [exact Hms2 | lia | right; reflexivity | cbv beta; cbn [String.append]].
  cbn [strip]. reflexivity.
Qed.

Section RoundTrip.

Variable LocalTZA : Z -> Z.

(** Compaction reads back from a formatted line the time that was written. *)
Lemma exec_entry_line (m : string) (c : DateObj) :
  wf_clock c ->
  exists ma,
    exec (make_date_cleanUp_regex "/" ":") (entry_line m c) = Some ma /\
    match_time LocalTZA ma = written_time LocalTZA c.
Proof.
  intros (Hy & Hmo & Hd & Hh & Hmi & Hs & Hms).
  destruct (pad_digits (getDate c)) as (D1 & D2 & D3); [lia|].
  destruct (pad_digits (getMonth c + 1)) as (M1 & M2 & M3); [lia|].
  destruct (year_digits (getFullYear c)) as (Y1 & Y2 & Y3); [lia|].
  destruct (pad_digits (getHours c)) as (h1 & h2 & h3); [lia|].
  destruct (pad_digits (getMinutes c)) as (mi1 & mi2 & mi3); [lia|].
  destruct (pad_digits (getSeconds c)) as (s1 & s2 & s3); [lia|].
  destruct (millisecond_digits (getMilliseconds c)) as (ms1 & ms2 & ms3); [lia|].
  destruct (exec_timestamp _ _ _ _ _ _ _ m D1 D2 M1 M2 Y1 Y2 h1 h2 mi1 mi2 s1 s2 ms1 ms2)
    as [whole Hx].
  eexists. split; [exact Hx|].
  assert (Hne : forall s, (1 <= String.length s)%nat -> nonempty s = true)
    by (intros [|a s] Hl; [cbn in Hl; lia | reflexivity]).
  unfold match_time, written_time. cbn [snd capture Nat.eqb]. unfold num, or0.
  rewrite !Hne by lia. now rewrite D3, M3, Y3, h3, mi3, s3, ms3.
Qed.

Lemma clean_up_keeps_entry (this : Logger) (now : Z) (m : string) (c : DateObj) :
  date_cleanUp_regex this = make_date_cleanUp_regex "/" ":" ->
  wf_clock c ->
  now - written_time LocalTZA c <= log_max_age this * 1000 ->
  clean_up_filter LocalTZA this now (entry_line m c) = true.
Proof.
  intros Hre Hc Hage. unfold clean_up_filter.
  change (nonempty (entry_line m c)) with true. cbn [negb].
  destruct (exec_entry_line m c Hc) as (ma & Hx & Ht).
  rewrite Hre, Hx, Ht.
  destruct (Z.gtb_spec (now - written_time LocalTZA c) (log_max_age this * 1000));
    [lia|reflexivity].
Qed.



End RoundTrip.

(** ** The formatter *)

(** The formatter never reads the delimiters the logger was built with:
    whatever they are, it writes the layout of the specification for the
    delimiters ["/"] and [":"]. *)
Lemma format_fixed_delimiters (file fl : string) (max_age : Z) (dd td : string)
  (af : bool) (m : string) (c : DateObj) :
  format (initialised file fl max_age dd td af) m c = spec_format "/" ":" m c.
Proof. reflexivity. Qed.

(** C5. [#format] writes ["/"] and [":"] whatever delimiters the logger
    was built with.  On a logger built with ["-"] and ["."] the line for
    ["x"] at 5 March 2024 07:08:09.004 is [[05/03/2024 07:08:09.4] - x],
    not the [[05-03-2024 07.08.09.4] - x] of the specified layout; the
    padding, the four-digit year and the unpadded millisecond are as
    specified. *)
Theorem format_ignores_delimiters :
  constructor "test.log" "a" 7776000 "-" "." true = Some (Return dashed_logger) /\
  format dashed_logger "x" sample_clock =
    (nl ++ "[05/03/2024 07:08:09.4] - x" ++ nl)%string /\
  spec_format "-" "." "x" sample_clock =
    (nl ++ "[05-03-2024 07.08.09.4] - x" ++ nl)%string /\
  format dashed_logger "x" sample_clock <> spec_format "-" "." "x" sample_clock.
Proof.
  repeat split; try reflexivity. vm_compute. discriminate.
Qed.

(** ** Worked examples *)

(** The example of the specification: with a retention of 150 seconds,
    of three entries aged 200, 100 and 0 seconds the last two are kept. *)
Example retention_example :
  let this := initialised "test.log" "a" 150 "/" ":" true in
  let raw := (nl ++ "[05/03/2024 07:04:49.4] - old" ++ nl ++
              nl ++ "[05/03/2024 07:06:29.4] - mid" ++ nl ++
              nl ++ "[05/03/2024 07:08:09.4] - new" ++ nl)%string in
  entries (contents (fst (handler utc_host this (clean_up_task sample_time)
                            (Some (file_with raw))))) =
  ["[05/03/2024 07:06:29.4] - mid"; "[05/03/2024 07:08:09.4] - new"].
Proof. vm_compute. reflexivity. Qed.

(** An entry aged exactly the retention is kept, one millisecond more and
    it is dropped. *)
Example boundary_example :
  let this := initialised "test.log" "a" 150 "/" ":" true in
  let e := "[05/03/2024 07:08:09.4] - x" in
  clean_up_filter utc_host this (sample_time + 150000) e = true /\
  clean_up_filter utc_host this (sample_time + 150001) e = false.
Proof. vm_compute. auto. Qed.

(** *** C1 *)

Lemma logs_in_order_witness :
  let calls := [("a", false, sample_clock); ("b", false, sample_clock)] in
  flag sample_logger = "a" /\ promise_chain sample_logger = [] /\
  accessible None = true /\ (calls <> [] \/ @None Fs.file <> None) /\
  let q := getLogs (submit sample_logger calls) None None None in
  let out := run utc_host (fst q) None in
  contents (fst out) =
    (contents None ++ text_of (map (written sample_logger) calls))%string /\
  ((forall c, In c calls ->
      (auto_format sample_logger || snd (fst c))%bool = true /\
      one_line (fst (fst c)) = true) ->
   await (snd out) (snd q) =
   Some (Fulfilled (Arr (entries (contents None) ++
                         map (fun c => entry_line (fst (fst c)) (snd c)) calls)))).
Proof.
  intro calls.
  assert (H : calls <> [] \/ @None Fs.file <> None) by (left; discriminate).
  do 4 (split; [first [reflexivity | exact H]|]).
  exact (logs_in_order utc_host sample_logger calls None eq_refl eq_refl eq_refl H).
Defined.

(** With [auto_format] off, [log("a")] then [log("b")] write ["ab"]: the
    query resolves with the single entry ["ab"], not with ["a"] and ["b"]. *)
Lemma unformatted_logs_merge :
  let calls := [("a", false, sample_clock); ("b", false, sample_clock)] in
  let q := getLogs (submit raw_logger calls) None None None in
  let out := run utc_host (fst q) None in
  constructor "test.log" "a" 7776000 "/" ":" false = Some (Return raw_logger) /\
  await (snd out) (snd q) = Some (Fulfilled (Arr ["ab"])) /\
  await (snd out) (snd q) <> Some (Fulfilled (Arr ["a"; "b"])).
Proof.
  repeat split; try reflexivity. vm_compute. discriminate.
Qed.

(** *** C2 *)

(** C2. [getLogs] does not reject every date that fails the pattern:
    the date expression has no end anchor, so ["01/02/2024xyz"], which does
    not conform, passes the check.  No rejected promise is returned, the
    query is chained, and on a missing file its link goes on to the read,
    which fails. *)
Theorem trailing_text_accepted :
  let q := getLogs sample_logger None (Some "01/02/2024xyz") None in
  conforms "/" ":" "01/02/2024xyz" = false /\
  test (date_regex sample_logger) "01/02/2024xyz" = true /\
  snd q = Link 0 /\
  List.length (promise_chain (fst q)) = 1%nat /\
  await (snd (run utc_host (fst q) None)) (snd q) =
    Some (Fulfilled (TypeError "data.split is not a function")).
Proof. repeat split; reflexivity. Qed.

(** *** C3 *)

Lemma query_filter_witness :
  let f := file_with ("one needle" ++ nl ++ "two" ++ nl ++ "05/03/2024 three" ++ nl) in
  Fs.readable f = true /\ returns None /\
  exists result,
    handler utc_host sample_logger
      (get_logs_task None (Some "05/03/2024") (Some "needle")) (Some f) =
      (Some f, Return (Arr result)) /\
    ((truthy (Some "needle") || truthy (Some "05/03/2024"))%bool = true ->
     result = filter (fun e => (contains_filter (Some "needle") e ||
                                contains_filter (Some "05/03/2024") e)%bool)
                     (entries (Fs.data f)) /\
     forall e, In e result <->
               In e (entries (Fs.data f)) /\
               (contains_filter (Some "needle") e = true \/
                contains_filter (Some "05/03/2024") e = true)) /\
    ((truthy (Some "needle") || truthy (Some "05/03/2024"))%bool = false ->
     result = entries (Fs.data f)).
Proof.
  intro f.
  assert (H : returns None) by (intros g Hg; discriminate).
  split; [reflexivity|]. split; [exact H|].
  exact (query_filter utc_host sample_logger None (Some "05/03/2024") (Some "needle")
           f eq_refl H).
Defined.

(** *** C6 *)

Lemma error_isolation_witness :
  let pre := [log_task "a"] in
  let t := log_task "b" in
  let post := [get_logs_task None None None] in
  let e := Error "Error in log1: " (SystemError Fs.EEXIST) in
  snd (handler utc_host exclusive_logger t
         (fst (drain utc_host exclusive_logger (Fulfilled undefined) pre None))) = Throw e /\
  let before := drain utc_host exclusive_logger (Fulfilled undefined) pre None in
  let after := drain utc_host exclusive_logger (Fulfilled undefined) post (fst before) in
  drain utc_host exclusive_logger (Fulfilled undefined) (pre ++ t :: post) None =
    (fst after, snd before ++ Fulfilled e :: snd after) /\
  drain utc_host exclusive_logger (Fulfilled undefined) (pre ++ post) None =
    (fst after, snd before ++ snd after) /\
  Forall is_fulfilled (snd after) /\
  List.length (snd after) = List.length post.
Proof.
  intros pre t post e. split; [reflexivity|].
  exact (error_isolation utc_host exclusive_logger pre post t None e eq_refl).
Defined.

(** *** C7 *)

Lemma unparseable_dropped_witness :
  let f := file_with ("junk" ++ nl ++ "[05/03/2024 07:08:09.4] - x" ++ nl) in
  Fs.readable f = true /\ Fs.writable f = true /\
  exec (date_cleanUp_regex sample_logger) "junk" = None /\
  ~ In "junk" (entries (contents (fst (handler utc_host sample_logger
                                         (clean_up_task sample_time) (Some f))))).
Proof.
  intro f. do 3 (split; [reflexivity|]).
  exact (unparseable_dropped utc_host sample_logger sample_time f "junk"
           eq_refl eq_refl eq_refl).
Defined.

(** *** C8 *)



(** *** C10 *)


(* ================================================================= *)
(** * Further properties of the logger *)

(** ** The constructor *)

(** X1. The constructor checks the file and the flag before it builds its
    expressions: whatever the delimiters, a missing file is reported first
    and an unknown flag second.  With modelled delimiters (literal ones, or
    the dot) it returns a logger exactly when a file is given and the flag
    is one of ['a'], ['ax'], ['w'], ['wx'], and the logger then has the
    given settings and an empty chain. *)
Theorem constructor_validation (file fl : string) (max_age : Z) (dd td : string)
  (af : bool) :
  (file = "" ->
   exists msg,
     constructor file fl max_age dd td af = Some (Throw (Error msg (Str ""))) /\
     String.prefix "Syntaxerror" msg = true) /\
  (file <> "" -> ~ (fl = "a" \/ fl = "ax" \/ fl = "w" \/ fl = "wx") ->
   constructor file fl max_age dd td af =
     Some (Throw (Error "I/O Error: Logger flag must be 'a', 'ax', 'w' or 'wx'"
                        (Str "")))) /\
  (modelled_delimiter dd = true -> modelled_delimiter td = true ->
   ((exists this, constructor file fl max_age dd td af = Some (Return this)) <->
    file <> "" /\ (fl = "a" \/ fl = "ax" \/ fl = "w" \/ fl = "wx")) /\
   (forall this, constructor file fl max_age dd td af = Some (Return this) ->
      this = initialised file fl max_age dd td af /\ promise_chain this = [])).
Proof.
  assert (Hfile : nonempty file = true <-> file <> "")
    by (destruct file; cbn; split; congruence).
  assert (Hflag : valid_flag fl = true <->
                  fl = "a" \/ fl = "ax" \/ fl = "w" \/ fl = "wx").
  { unfold valid_flag. rewrite !orb_true_iff, !String.eqb_eq. tauto. }
  unfold constructor. split; [|split].
  - intros ->. cbn. eexists. split; reflexivity.
  - intros Hf Hn. apply Hfile in Hf. rewrite Hf. cbn [negb].
    destruct (valid_flag fl) eqn:Vf; [|reflexivity].
    exfalso. apply Hn, Hflag. reflexivity.
  - intros Hdd Htd. rewrite Hdd, Htd. cbn [andb].
    destruct (nonempty file) eqn:Nf; cbn [negb];
      [destruct (valid_flag fl) eqn:Vf; cbn [negb]|]; split.
    + split; [intros _|eauto].
      split; [apply Hfile|apply Hflag]; reflexivity.
    + intros this [= <-]. split; reflexivity.
    + split; [intros [this H]; discriminate|].
      intros [_ H]. apply Hflag in H. discriminate.
    + discriminate.
    + split; [intros [this H]; discriminate|].
      intros [H _]. apply Hfile in H. congruence.
    + discriminate.
Qed.

(** ** Write modes *)

Section WriteModes.

Variable LocalTZA : Z -> Z.

Lemma handler_log_ok (this : Logger) (text : string) (d d' : Fs.disk) :
  Fs.writeFile d text (flag this) = inl d' ->
  handler LocalTZA this (log_task text) d = (d', Return undefined).
Proof.
  intro W. unfold handler, bind, catch, writeFile, ret. now rewrite W.
Qed.

Lemma handler_log_failed (this : Logger) (text : string) (d : Fs.disk)
  (code : Fs.errno) :
  Fs.writeFile d text (flag this) = inr code ->
  handler LocalTZA this (log_task text) d = (d, Throw (log_error code)).
Proof.
  intro W. unfold handler, bind, catch, writeFile, throw. now rewrite W.
Qed.

Lemma write_truncate (d : Fs.disk) (text : string) :
  accessible d = true ->
  exists f, Fs.writeFile d text "w" = inl (Some f) /\
            accessible (Some f) = true /\ Fs.data f = text.
Proof.
  intro H. destruct d as [f|]; cbn in *.
  - apply andb_true_iff in H as [Hr Hw]. rewrite Hw.
    eexists. split; [reflexivity|]. cbn. rewrite Hr. auto.
  - eexists. split; [reflexivity|]. cbn. auto.
Qed.

Lemma drain_logs_truncate (this : Logger) (texts : list string) (d : Fs.disk) :
  flag this = "w" -> accessible d = true ->
  accessible (fst (drain LocalTZA this (Fulfilled undefined) (map log_task texts) d)) = true /\
  snd (drain LocalTZA this (Fulfilled undefined) (map log_task texts) d) =
    map (fun _ => Fulfilled undefined) texts.
Proof.
  intro Hf. revert d. induction texts as [|x texts IH]; intros d Hd.
  - cbn. auto.
  - cbn [map]. rewrite drain_cons, link_fulfilled.
    destruct (write_truncate d x Hd) as (f & W & Hacc & _).
    rewrite <- Hf in W. rewrite (handler_log_ok this x d _ W). cbn [fst snd].
    destruct (IH (Some f) Hacc) as [I1 I2]. rewrite I2. auto.
Qed.

(** X2. In truncate mode (['w']) every [log] replaces the file: after a
    batch of calls on a free or accessible path the file holds the text of
    the last call only, and every link is fulfilled. *)
Theorem truncate_mode_keeps_last (this : Logger) (texts : list string)
  (final : string) (d : Fs.disk) :
  flag this = "w" -> accessible d = true ->
  contents (fst (drain LocalTZA this (Fulfilled undefined)
                   (map log_task (texts ++ [final])) d)) = final /\
  snd (drain LocalTZA this (Fulfilled undefined)
         (map log_task (texts ++ [final])) d) =
    map (fun _ => Fulfilled undefined) (texts ++ [final]).
Proof.
  intros Hf Hd. rewrite map_app, drain_app. cbn [fst snd map].
  destruct (drain_logs_truncate this texts d Hf Hd) as [Hacc Hres].
  rewrite drain_cons, link_fulfilled. cbn [drain fst snd].
  destruct (write_truncate _ final Hacc) as (f & W & _ & Hdata).
  rewrite <- Hf in W. rewrite (handler_log_ok this final _ _ W). cbn [fst snd contents].
  split; [exact Hdata|]. now rewrite Hres, map_app.
Qed.

Lemma write_exclusive_exists (f : Fs.file) (text fl : string) :
  fl = "ax" \/ fl = "wx" ->
  Fs.writeFile (Some f) text fl = inr Fs.EEXIST.
Proof. intros [-> | ->]; reflexivity. Qed.

Lemma drain_logs_exclusive (this : Logger) (texts : list string) (f : Fs.file) :
  flag this = "ax" \/ flag this = "wx" ->
  drain LocalTZA this (Fulfilled undefined) (map log_task texts) (Some f) =
  (Some f, map (fun _ => Fulfilled (log_error Fs.EEXIST)) texts).
Proof.
  intro Hf. induction texts as [|x texts IH]; [reflexivity|].
  cbn [map]. rewrite drain_cons, link_fulfilled.
  rewrite (handler_log_failed this x (Some f) Fs.EEXIST)
    by now apply write_exclusive_exists.
  cbn [fst snd]. now rewrite IH.
Qed.

(** X3. In the exclusive modes (['ax'], ['wx']) only a [log] that finds
    the path free writes: on a free path the first call creates the file
    with its text and every later call fails with [EEXIST]; on an existing
    file every call fails.  The failures settle their own links and leave
    the file as it is. *)
Theorem exclusive_mode_first_only (this : Logger) (first : string)
  (rest : list string) (f : Fs.file) :
  flag this = "ax" \/ flag this = "wx" ->
  drain LocalTZA this (Fulfilled undefined) (map log_task (first :: rest)) None =
    (Some (Fs.create first),
     Fulfilled undefined :: map (fun _ => Fulfilled (log_error Fs.EEXIST)) rest) /\
  drain LocalTZA this (Fulfilled undefined) (map log_task (first :: rest)) (Some f) =
    (Some f, map (fun _ => Fulfilled (log_error Fs.EEXIST)) (first :: rest)).
Proof.
  intro Hf. split; [|now apply drain_logs_exclusive].
  cbn [map]. rewrite drain_cons, link_fulfilled.
  assert (W : Fs.writeFile None first (flag this) = inl (Some (Fs.create first)))
    by (destruct Hf as [-> | ->]; reflexivity).
  rewrite (handler_log_ok this first None _ W). cbn [fst snd].
  now rewrite drain_logs_exclusive.
Qed.

End WriteModes.

(** ** What queries and compaction leave alone *)

Section ReadOnly.

Variable LocalTZA : Z -> Z.

Lemma call_disk (cb : option callback) (a b : jsval) (d : Fs.disk) :
  fst (call cb a b d) = d.
Proof.
  unfold call. destruct cb as [g|]; [destruct (g a b)|]; reflexivity.
Qed.

Lemma handler_get_logs_disk (this : Logger) (cb : option callback)
  (date content : option string) (d : Fs.disk) :
  fst (handler LocalTZA this (get_logs_task cb date content) d) = d.
Proof.
  unfold handler, bind.
  destruct (getLogData this d) as [d1 [logs|e]] eqn:G;
    apply getLogData_disk in G as ->; [|reflexivity].
  destruct (negb (truthy content) && negb (truthy date))%bool.
  - pose proof (call_disk cb (Arr logs) undefined d) as C.
    destruct (call cb (Arr logs) undefined d) as [d2 [[]|e]]; cbn in *; now subst.
  - pose proof (call_disk cb (Arr (filter (get_logs_filter date content) logs))
                  undefined d) as C.
    destruct (call cb _ undefined d) as [d2 [[]|e]]; cbn in *; now subst.
Qed.

(** X4. Queries never write: a chain made of [getLogs] links only leaves
    the backing file, present or not, exactly as it was, whatever the
    filters and the callbacks, throwing ones included. *)
Theorem queries_leave_file (this : Logger) (ts : list task) (d : Fs.disk) :
  forallb is_query ts = true ->
  fst (drain LocalTZA this (Fulfilled undefined) ts d) = d.
Proof.
  revert d. induction ts as [|t ts IH]; intros d H; [reflexivity|].
  cbn in H. apply andb_true_iff in H as [Ht Hts].
  rewrite drain_cons, link_fulfilled. cbn [fst].
  destruct t as [x|cb date content|now]; try discriminate.
  rewrite handler_get_logs_disk. now apply IH.
Qed.

(** X5. Only [log] creates the backing file: while the path is free, a
    chain of [getLogs] and [cleanUp] links leaves it free. *)
Theorem only_log_creates (this : Logger) (ts : list task) :
  forallb (fun t => negb (is_log t)) ts = true ->
  fst (drain LocalTZA this (Fulfilled undefined) ts None) = None.
Proof.
  induction ts as [|t ts IH]; intro H; [reflexivity|].
  cbn in H. apply andb_true_iff in H as [Ht Hts].
  rewrite drain_cons, link_fulfilled. cbn [fst].
  destruct t as [x|cb date content|now]; try discriminate.
  - rewrite handler_get_logs_disk. now apply IH.
  - rewrite (handler_clean_up_with_failed LocalTZA this now None) by now right.
    now apply IH.
Qed.

(** X6. An exception of the callback of a query is not lost and does not
    reject: when the callback throws on the entries it is handed, the link
    of the query is fulfilled with the value thrown instead of the
    entries, and the file is untouched. *)
Theorem callback_exception_becomes_value (this : Logger) (g : callback)
  (date content : option string) (f : Fs.file) (e v : jsval) :
  Fs.readable f = true ->
  (forall l, g (Arr l) undefined = Some e) ->
  link LocalTZA this (Fulfilled v) (get_logs_task (Some g) date content) (Some f) =
  (Some f, Fulfilled e).
Proof.
  intros Hr Hg. rewrite link_fulfilled. unfold handler, bind.
  rewrite (getLogData_read this (Some f) (Fs.data f)) by (cbn; now rewrite Hr).
  destruct (negb (truthy content) && negb (truthy date))%bool;
    unfold call; rewrite Hg; reflexivity.
Qed.

Lemma filter_true {A} (l : list A) : filter (fun _ => true) l = l.
Proof. induction l as [|x l IH]; cbn; congruence. Qed.

(** X7. Compaction only removes: in every state of the file, the entries
    after a [cleanUp] are entries that were there before, in the same
    order; none is added, changed or moved. *)
Theorem compaction_only_removes (this : Logger) (now : Z) (d : Fs.disk) :
  exists keep,
    entries (contents (fst (handler LocalTZA this (clean_up_task now) d))) =
    filter keep (entries (contents d)).
Proof.
  destruct d as [f|].
  - destruct (Fs.readable f) eqn:Hr; [destruct (Fs.writable f) eqn:Hw|].
    + exists (clean_up_filter LocalTZA this now).
      now apply compacted_entries_kept.
    + exists (fun _ => true).
      rewrite handler_clean_up_failed, filter_true; [reflexivity|].
      left. cbn. now rewrite Hr, Hw.
    + exists (fun _ => true).
      rewrite handler_clean_up_failed, filter_true; [reflexivity|].
      left. cbn. now rewrite Hr.
  - exists (fun _ => true). reflexivity.
Qed.

Lemma clean_up_filter_earlier (this : Logger) (now1 now2 : Z) (e : string) :
  now1 <= now2 ->
  clean_up_filter LocalTZA this now2 e = true ->
  clean_up_filter LocalTZA this now1 e = true.
Proof.
  intros Hle. unfold clean_up_filter.
  destruct (negb (nonempty e)); [auto|].
  destruct (exec (date_cleanUp_regex this) e) as [ma|]; [|auto].
  destruct (Z.gtb_spec (now2 - match_time LocalTZA ma) (log_max_age this * 1000));
    [discriminate|].
  destruct (Z.gtb_spec (now1 - match_time LocalTZA ma) (log_max_age this * 1000));
    [lia|reflexivity].
Qed.

Lemma filter_filter_implied {A} (f g : A -> bool) (l : list A) :
  (forall x, g x = true -> f x = true) ->
  filter g (filter f l) = filter g l.
Proof.
  intro H. induction l as [|x l IH]; [reflexivity|]. cbn.
  destruct (f x) eqn:Ef; cbn.
  - now rewrite IH.
  - destruct (g x) eqn:Eg; [|exact IH].
    rewrite (H x Eg) in Ef. discriminate.
Qed.

(** X8. A later compaction subsumes an earlier one: a [cleanUp] that
    reads [now1] followed by one that reads a later [now2] leaves the same
    file as the second one alone, in every state of the file. *)
Theorem later_compaction_subsumes (this : Logger) (now1 now2 : Z) (d : Fs.disk) :
  now1 <= now2 ->
  fst (handler LocalTZA this (clean_up_task now2)
         (fst (handler LocalTZA this (clean_up_task now1) d))) =
  fst (handler LocalTZA this (clean_up_task now2) d).
Proof.
  intro Hle. destruct d as [f|]; [|reflexivity].
  destruct (Fs.readable f) eqn:Hr; [destruct (Fs.writable f) eqn:Hw|].
  - rewrite (handler_clean_up_ok LocalTZA this now1 f Hr Hw). cbn [fst].
    rewrite !handler_clean_up_ok by assumption.
    cbn [fst Fs.data Fs.readable Fs.writable].
    rewrite entries_compacted.
    + rewrite filter_filter_implied; [reflexivity|].
      intros e. now apply clean_up_filter_earlier.
    + intros e He. apply filter_In in He as [He _]. now apply entries_spec in He.
  - rewrite (handler_clean_up_failed LocalTZA this now1 (Some f));
      [reflexivity | left; cbn; now rewrite Hr, Hw].
  - rewrite (handler_clean_up_failed LocalTZA this now1 (Some f));
      [reflexivity | left; cbn; now rewrite Hr].
Qed.

End ReadOnly.

(** ** Formatted entries and compaction *)

Section Formatted.

Variable LocalTZA : Z -> Z.

Lemma filter_all {A} (f : A -> bool) (l : list A) :
  (forall x, In x l -> f x = true) -> filter f l = l.
Proof.
  induction l as [|x l IH]; intro H; [reflexivity|]. cbn.
  rewrite (H x (or_introl eq_refl)). f_equal. apply IH.
  intros y Hy. apply H. now right.
Qed.

(** X9. Compaction is the identity on a file of fresh formatted entries:
    when the file is exactly what formatted [log] calls wrote (default
    delimiters, messages without line feed) and every entry is within the
    retention, [cleanUp] rewrites the file with the very same text. *)
Theorem compaction_keeps_fresh_file (this : Logger)
  (calls : list (string * bool * DateObj)) (now : Z) (f : Fs.file) :
  date_cleanUp_regex this =
    make_date_cleanUp_regex default_date_delimiter default_time_delimiter ->
  Fs.readable f = true -> Fs.writable f = true ->
  Fs.data f = text_of (map (written this) calls) ->
  (forall c, In c calls ->
     (auto_format this || snd (fst c))%bool = true /\
     one_line (fst (fst c)) = true /\
     wf_clock (snd c) /\
     now - written_time LocalTZA (snd c) <= log_max_age this * 1000) ->
  fst (handler LocalTZA this (clean_up_task now) (Some f)) = Some f.
Proof.
  intros Hre Hr Hw Hdata Hall.
  rewrite (handler_clean_up_ok LocalTZA this now f Hr Hw). cbn [fst].
  assert (He : entries (Fs.data f) =
               map (fun c => entry_line (fst (fst c)) (snd c)) calls).
  { rewrite Hdata.
    pose proof (entries_formatted this calls EmptyString) as E.
    cbn [String.append] in E. rewrite E, entries_empty; [reflexivity|].
    intros c Hc. destruct (Hall c Hc) as (H1 & H2 & _). auto. }
  rewrite He, filter_all.
  2:{ intros e Hin. apply in_map_iff in Hin as (c & <- & Hc).
      destruct (Hall c Hc) as (_ & _ & H3 & H4).
      now apply clean_up_keeps_entry. }
  rewrite compacted_layout, map_map.
  rewrite (map_ext_in _ (written this)).
  2:{ intros c Hc. destruct (Hall c Hc) as (H1 & _).
      unfold written. now rewrite H1, format_entry_line. }
  rewrite <- Hdata. destruct f; reflexivity.
Qed.

(** X10. What [#format] writes, compaction reads back: the text of a
    formatted message without line feed is one entry, the line of the
    message, and with the default delimiters the compaction expression
    matches that line and yields the time value of the fields that were
    written (millisecond included). *)
Theorem format_parse_round_trip (this : Logger) (m : string) (c : DateObj) :
  wf_clock c -> one_line m = true ->
  entries (format this m c) = [entry_line m c] /\
  exists ma,
    exec (make_date_cleanUp_regex default_date_delimiter default_time_delimiter)
         (entry_line m c) = Some ma /\
    match_time LocalTZA ma = written_time LocalTZA c.
Proof.
  intros Hc Hm. split.
  - rewrite format_entry_line.
    change (nl ++ entry_line m c ++ nl)%string
      with ("" ++ nl ++ (entry_line m c ++ nl ++ ""))%string.
    rewrite !entries_app_nl, entries_empty.
    destruct (entry_line_one_line m c Hm) as [H1 H2].
    now rewrite (entries_one_line _ H1 H2).
  - now apply exec_entry_line.
Qed.

(** X14. Every entry a query resolves with is a non-empty line without
    line feed, whatever the file holds and whatever the filters are. *)
Theorem query_results_well_formed (this : Logger) (cb : option callback)
  (date content : option string) (d d' : Fs.disk) (v : jsval) :
  handler LocalTZA this (get_logs_task cb date content) d = (d', Return v) ->
  exists l, v = Arr l /\
            forall e, In e l -> nonempty e = true /\ one_line e = true.
Proof.
  unfold handler, bind.
  destruct (Fs.readFile d) as [raw|code] eqn:R.
  - rewrite (getLogData_read this d raw R).
    destruct (negb (truthy content) && negb (truthy date))%bool.
    + destruct (call cb (Arr (entries raw)) undefined d) as [d1 [[]|e]];
        [|discriminate].
      intros [= _ <-]. eexists. split; [reflexivity|].
      intros e He. now apply entries_spec in He.
    + destruct (call cb _ undefined d) as [d1 [[]|e]]; [|discriminate].
      intros [= _ <-]. eexists. split; [reflexivity|].
      intros e He. apply filter_In in He as [He _]. now apply entries_spec in He.
  - rewrite (getLogData_failed this d code R). discriminate.
Qed.

End Formatted.

(** ** The day of an entry as a date filter *)

Lemma prefix_app (a b : string) : String.prefix a (a ++ b) = true.
Proof.
  induction a as [|x a IH]; [destruct b; reflexivity|]. cbn.
  destruct (ascii_dec x x); [exact IH|contradiction].
Qed.

Lemma includes_prefix (s sub : string) :
  String.prefix sub s = true -> includes s sub = true.
Proof. intro H. destruct s; cbn [includes]; now rewrite H. Qed.

Lemma entry_line_day (m : string) (c : DateObj) :
  exists rest, entry_line m c = String "["%char (day_string c ++ rest).
Proof.
  eexists. unfold entry_line, day_string.
  rewrite !append_assoc. cbn [String.append]. reflexivity.
Qed.

(** X15. The day of an entry finds it: for a logger with the default
    delimiters, the day [DD/MM/YYYY] of a formatted entry passes the date
    check of [getLogs], so the query is chained, and the filter of the
    query keeps that entry. *)
Theorem day_filter_finds_entry (this : Logger) (cb : option callback)
  (m : string) (c : DateObj) :
  date_regex this = make_date_regex default_date_delimiter default_time_delimiter ->
  wf_clock c ->
  getLogs this cb (Some (day_string c)) None =
    (chain this (get_logs_task cb (Some (day_string c)) None),
     Link (List.length (promise_chain this))) /\
  get_logs_filter (Some (day_string c)) None (entry_line m c) = true.
Proof.
  intros Hre (Hy & Hmo & Hd & _).
  destruct (pad_digits (getDate c)) as (D1 & D2 & _); [lia|].
  destruct (pad_digits (getMonth c + 1)) as (M1 & M2 & _); [lia|].
  destruct (year_digits (getFullYear c)) as (Y1 & Y2 & _); [lia|].
  split.
  - unfold getLogs. rewrite Hre.
    assert (T : test (make_date_regex default_date_delimiter default_time_delimiter)
                     (day_string c) = true).
    { unfold day_string.
      rewrite <- (append_empty_r (ToString (getFullYear c))).
      now apply date_regex_accepts. }
    rewrite T. cbn [negb]. now rewrite andb_false_r.
  - destruct (entry_line_day m c) as [rest E].
    unfold get_logs_filter. rewrite E. cbn [nonempty negb truthy andb].
    assert (N : nonempty (day_string c) = true).
    { unfold day_string. destruct (pad (getDate c)); [discriminate|reflexivity]. }
    rewrite N. cbn [negb andb].
    assert (I : includes (String "["%char (day_string c ++ rest)) (day_string c) = true).
    { cbn [includes]. rewrite (includes_prefix _ _ (prefix_app _ _)).
      now rewrite orb_true_r. }
    now rewrite I.
Qed.

(** ** The language of the date check *)

Lemma Matches_Opt_inv (r : regex) (t : string) (c c' : captures) :
  Matches (Opt r) t c c' -> Matches r t c c' \/ (t = EmptyString /\ c' = c).
Proof. inversion 1; subst; auto. Qed.

Lemma Matches_Grp_inv (i : nat) (r : regex) (t : string) (c c' : captures) :
  Matches (Grp i r) t c c' -> exists c0, Matches r t c c0 /\ c' = (i, t) :: c0.
Proof. inversion 1; subst; eauto. Qed.

(** X12. With literal delimiters, the date check of [getLogs] accepts
    exactly the strings that start with an optional ['['], one or two
    digits, the date delimiter, one or two digits, the date delimiter and
    four digits; what follows is not looked at. *)
Theorem date_regex_language (dd td s : string) :
  literal_delimiter dd = true -> literal_delimiter td = true ->
  test (make_date_regex dd td) s = true <->
  exists b D M Y rest,
    s = (b ++ D ++ dd ++ M ++ dd ++ Y ++ rest)%string /\
    (b = "" \/ b = "[") /\
    (1 <= String.length D <= 2)%nat /\ all_digits D = true /\
    (1 <= String.length M <= 2)%nat /\ all_digits M = true /\
    String.length Y = 4%nat /\ all_digits Y = true.
Proof.
  intros Hdd Htd. unfold make_date_regex.
  rewrite (pasted_literal dd Hdd), (pasted_literal td Htd).
  split.
  - unfold test, exec.
    match goal with
    | |- match backtrack ?r s [] ?k with _ => _ end = true -> _ =>
        destruct (backtrack r s [] k) as [x|] eqn:E; [intros _|discriminate]
    end.
    apply backtrack_sound in E as (t & s' & c' & -> & H & _).
    unfold cat_all in H. cbn [fold_right] in H.
    apply Matches_Cat_inv in H as (b & t1 & c1 & -> & Hb & H).
    apply Matches_Cat_inv in H as (D & t2 & c2 & -> & HD & H).
    apply Matches_Cat_inv in H as (l1 & t3 & c3 & -> & Hl1 & H).
    apply Matches_Cat_inv in H as (M & t4 & c4 & -> & HM & H).
    apply Matches_Cat_inv in H as (l2 & t5 & c5 & -> & Hl2 & H).
    apply Matches_Cat_inv in H as (Y & t6 & c6 & -> & HY & H).
    apply Matches_Rep_inv in HD as (_ & HDl & HDd).
    apply Matches_Rep_inv in HM as (_ & HMl & HMd).
    apply Matches_Rep_inv in HY as (_ & HYl & HYd).
    apply Matches_Lit_inv in Hl1 as [-> _].
    apply Matches_Lit_inv in Hl2 as [-> _].
    exists b, D, M, Y, (t6 ++ s')%string.
    split; [now rewrite !append_assoc|].
    split.
    { apply Matches_Opt_inv in Hb as [Hb|[Hb _]]; [|now left].
      apply Matches_Lit_inv in Hb as [-> _]. now right. }
    unfold all_digits. repeat split; auto; lia.
  - intros (b & D & M & Y & rest & -> & Hb & HDl & HDd & HMl & HMd & HYl & HYd).
    match goal with
    | |- test ?r _ = true =>
        assert (M0 : Matches r (b ++ D ++ dd ++ M ++ dd ++ Y) [] [])
    end.
    { unfold cat_all. cbn [fold_right].
      eapply (Matches_Cat_intro _ _ _ b);
        [destruct Hb as [-> | ->]; [apply MOptNone|apply MOptSome, MLit]| |reflexivity].
      eapply (Matches_Cat_intro _ _ _ D); [apply MRep; [lia|assumption]| |reflexivity].
      eapply (Matches_Cat_intro _ _ _ dd); [apply MLit| |reflexivity].
      eapply (Matches_Cat_intro _ _ _ M); [apply MRep; [lia|assumption]| |reflexivity].
      eapply (Matches_Cat_intro _ _ _ dd); [apply MLit| |reflexivity].
      eapply (Matches_Cat_intro _ _ _ Y "");
        [apply MRep; [lia|assumption]| |now rewrite append_empty_r].
      eapply (Matches_Cat_intro _ _ _ "" ""); [apply MOptNone| |reflexivity].
      eapply (Matches_Cat_intro _ _ _ "" ""); [apply MOptNone|apply MLit|reflexivity]. }
    replace (b ++ D ++ dd ++ M ++ dd ++ Y ++ rest)%string
      with ((b ++ D ++ dd ++ M ++ dd ++ Y) ++ rest)%string
      by (now rewrite !append_assoc).
    now apply (test_complete _ _ _ []).
Qed.

(** ** Delimiters other than the ones the formatter writes *)

Lemma literal_not_digit (c : ascii) : literal_char c = true -> digit c = false.
Proof.
  destruct c as [[] [] [] [] [] [] [] []]; vm_compute; intro H;
    first [reflexivity | discriminate].
Qed.

(** After one or two digits, a literal delimiter can only match the
    separator that follows a two-digit field. *)
Lemma delimiter_forced (t1 dl r D X : string) (sep x : ascii) :
  all_digits t1 = true -> (1 <= String.length t1 <= 2)%nat ->
  literal_delimiter dl = true ->
  String.length D = 2%nat -> all_digits D = true ->
  digit x = true ->
  (t1 ++ dl ++ r)%string = (D ++ String sep (String x X))%string ->
  dl = String sep EmptyString.
Proof.
  intros Ht1 Hl1 Hdl HDl HDd Hx E.
  destruct D as [|a [|b [|? ?]]]; try discriminate.
  unfold all_digits in HDd. cbn in HDd.
  apply andb_true_iff in HDd as [Ha HDd]. apply andb_true_iff in HDd as [Hb _].
  unfold literal_delimiter in Hdl. apply andb_true_iff in Hdl as [Hne Hlit].
  destruct dl as [|d0 dl']; [discriminate|].
  cbn in Hlit. apply andb_true_iff in Hlit as [Hd0 Hlit].
  destruct t1 as [|u [|w [|? ?]]]; cbn in Hl1; try lia; cbn in E.
  - inversion E; subst. apply literal_not_digit in Hd0. congruence.
  - inversion E; subst. destruct dl' as [|d1 dl'']; [reflexivity|].
    cbn in Hlit. apply andb_true_iff in Hlit as [Hd1 _].
    cbn in H3. inversion H3; subst.
    apply literal_not_digit in Hd1. congruence.
Qed.

Lemma two_digits_shape (s : string) :
  String.length s = 2%nat -> all_digits s = true ->
  exists a b, s = String a (String b EmptyString) /\ digit a = true /\ digit b = true.
Proof.
  intros Hl Hd. destruct s as [|a [|b [|? ?]]]; try discriminate.
  unfold all_digits in Hd. cbn in Hd.
  apply andb_true_iff in Hd as [Ha Hd]. apply andb_true_iff in Hd as [Hb _].
  eauto.
Qed.

Section ForeignDelimiters.

Variable LocalTZA : Z -> Z.

(** X11. With a date delimiter other than ["/"], compaction cannot parse
    what the logger itself writes: the compaction expression fails on
    every formatted line, so [cleanUp] drops every formatted entry
    whatever its age. *)
Theorem foreign_date_delimiter_unparseable (this : Logger) (dd td m : string)
  (c : DateObj) (now : Z) :
  literal_delimiter dd = true -> dd <> "/" ->
  modelled_delimiter td = true -> wf_clock c ->
  date_cleanUp_regex this = make_date_cleanUp_regex dd td ->
  exec (date_cleanUp_regex this) (entry_line m c) = None /\
  clean_up_filter LocalTZA this now (entry_line m c) = false.
Proof.
  intros Hlit Hne _ (Hy & Hmo & Hd & _) Hre.
  assert (X : exec (date_cleanUp_regex this) (entry_line m c) = None).
  { rewrite Hre.
    destruct (exec (make_date_cleanUp_regex dd td) (entry_line m c)) as [x|] eqn:E;
      [exfalso|reflexivity].
    unfold exec in E.
    apply backtrack_sound in E as (t & s' & c' & Hs & H & _).
    unfold make_date_cleanUp_regex, cat_all in H. cbn [fold_right] in H.
    apply Matches_Cat_inv in H as (b & t1 & c1 & -> & Hb & H).
    apply Matches_Cat_inv in H as (D & t2 & c2 & -> & HD & H).
    apply Matches_Cat_inv in H as (l1 & t3 & c3 & -> & Hl1 & H).
    apply Matches_Grp_inv in HD as (c0 & HD & _).
    apply Matches_Rep_inv in HD as (_ & HDl & HDd).
    apply Matches_Lit_inv in Hl1 as [-> _].
    destruct (pad_digits (getDate c)) as (D1 & D2 & _); [lia|].
    destruct (pad_digits (getMonth c + 1)) as (M1 & M2 & _); [lia|].
    destruct (two_digits_shape _ M1 M2) as (p & q & Mshape & Hp & _).
    unfold entry_line in Hs. rewrite Mshape in Hs.
    rewrite !append_assoc in Hs. cbn [String.append] in Hs.
    apply Matches_Opt_inv in Hb as [Hb|[-> _]].
    - apply Matches_Lit_inv in Hb as [-> _]. cbn [String.append] in Hs.
      inversion Hs as [Hs']. symmetry in Hs'.
      apply Hne.
      refine (delimiter_forced _ _ _ _ _ _ _ _ _ _ _ _ _ Hs');
        unfold all_digits; auto.
    - cbn [String.append] in Hs.
      destruct D as [|u D']; [cbn in HDl; lia|].
      cbn in Hs, HDd. inversion Hs; subst u.
      apply andb_true_iff in HDd as [Hu _]. vm_compute in Hu. discriminate. }
  split; [exact X|].
  unfold clean_up_filter. rewrite X. now destruct (negb _).
Qed.

Lemma opt_skip {R : Type} (r : regex) (s : string) (caps : captures)
  (k : @cont R) :
  backtrack r s caps k = None ->
  backtrack (Opt r) s caps k = k EmptyString s caps.
Proof. intro H. cbn [backtrack]. now rewrite H. Qed.

(** The compaction expression with a foreign time delimiter on a line in
    the layout of the formatter: the date is captured, the time is not. *)
Lemma exec_date_only (td D M Y h X : string) (x : ascii) :
  literal_delimiter td = true -> td <> ":" ->
  String.length D = 2%nat -> all_digits D = true ->
  String.length M = 2%nat -> all_digits M = true ->
  String.length Y = 4%nat -> all_digits Y = true ->
  String.length h = 2%nat -> all_digits h = true ->
  digit x = true ->
  exists whole,
    exec (make_date_cleanUp_regex "/" td)
      ("[" ++ D ++ "/" ++ M ++ "/" ++ Y ++ " " ++ h ++ String ":"%char (String x X)) =
    Some (whole, [(3%nat, Y); (2%nat, M); (1%nat, D)]).
Proof.
  intros Hlit Hne HD1 HD2 HM1 HM2 HY1 HY2 Hh1 Hh2 Hx. eexists.
  unfold exec, make_date_cleanUp_regex, escaped.
  rewrite (pasted_literal td Hlit).
  set (tp := cat_all [Grp 4 (Rep digit 1 2); Lit td; Grp 5 (Rep digit 1 2);
                      Lit td; Grp 6 (Rep digit 1 2); Chr any; Grp 7 (Rep digit 1 3)]).
  unfold cat_all at 1. cbn [fold_right].
  cbn [backtrack].
  apply or_else_Some. literal_step.
  digits_step HD1 HD2. literal_step.
  digits_step HM1 HM2. literal_step.
  digits_step HY1 HY2.
  apply or_else_Some. change (space " ") with true. cbv iota beta.
  match goal with
  | |- or_else ?a ?b = _ => destruct a as [y|] eqn:E
  end.
  - exfalso. apply backtrack_sound in E as (t & s' & c' & Hs & H & _).
    subst tp. unfold cat_all in H. cbn [fold_right] in H.
    apply Matches_Cat_inv in H as (t1 & t2 & c1 & -> & H1 & H).
    apply Matches_Cat_inv in H as (l1 & t3 & c2 & -> & Hl1 & H).
    apply Matches_Grp_inv in H1 as (c0 & H1 & _).
    apply Matches_Rep_inv in H1 as (_ & H1l & H1d).
    apply Matches_Lit_inv in Hl1 as [-> _].
    rewrite !append_assoc in Hs. symmetry in Hs.
    apply Hne.
    refine (delimiter_forced _ _ _ _ _ _ _ _ _ _ _ _ _ Hs);
      unfold all_digits; auto.
  - cbn [or_else strip]. reflexivity.
Qed.

(** X13. With a time delimiter other than [":"], compaction reads only
    the date of what the logger writes: the expression matches a formatted
    line without its time, and the entry is aged from the start of its
    day. *)
Theorem foreign_time_delimiter_reads_midnight (td m : string) (c : DateObj) :
  literal_delimiter td = true -> td <> ":" -> wf_clock c ->
  exists ma,
    exec (make_date_cleanUp_regex "/" td) (entry_line m c) = Some ma /\
    match_time LocalTZA ma = midnight_time LocalTZA c.
Proof.
  intros Hlit Hne (Hy & Hmo & Hd & Hh & Hmi & _).
  destruct (pad_digits (getDate c)) as (D1 & D2 & D3); [lia|].
  destruct (pad_digits (getMonth c + 1)) as (M1 & M2 & M3); [lia|].
  destruct (year_digits (getFullYear c)) as (Y1 & Y2 & Y3); [lia|].
  destruct (pad_digits (getHours c)) as (h1 & h2 & _); [lia|].
  destruct (pad_digits (getMinutes c)) as (mi1 & mi2 & _); [lia|].
  destruct (two_digits_shape _ mi1 mi2) as (p & q & Mshape & Hp & _).
  unfold entry_line. rewrite Mshape. cbn [String.append].
  destruct (exec_date_only td _ _ _ _
              (String q (String ":" (pad (getSeconds c) ++
                 String "." (ToString (getMilliseconds c) ++
                   String "]" (String " " (String "-" (String " " m)))))))
              p Hlit Hne D1 D2 M1 M2 Y1 Y2 h1 h2 Hp) as [whole Hx].
  cbn [String.append] in Hx.
  eexists. split; [exact Hx|].
  unfold match_time, midnight_time. cbn [snd capture Nat.eqb]. unfold num, or0.
  now rewrite D3, M3, Y3.
Qed.

End ForeignDelimiters.

(** ** Messages of several lines *)

Section Multiline.

Variable LocalTZA : Z -> Z.

(** X16. A formatted message with a line feed is stored as several
    entries: the first line carries the timestamp, the second is an entry
    of its own without one.  When that second line does not itself start
    like a date, compaction keeps the first line (if within the retention)
    and drops the second. *)
Theorem multiline_message_split (this : Logger) (m1 m2 : string) (c : DateObj)
  (now : Z) :
  one_line m1 = true -> one_line m2 = true -> nonempty m2 = true ->
  entries (format this (m1 ++ nl ++ m2) c) = [entry_line m1 c; m2] /\
  (date_cleanUp_regex this =
     make_date_cleanUp_regex default_date_delimiter default_time_delimiter ->
   wf_clock c ->
   now - written_time LocalTZA c <= log_max_age this * 1000 ->
   exec (date_cleanUp_regex this) m2 = None ->
   filter (clean_up_filter LocalTZA this now)
          (entries (format this (m1 ++ nl ++ m2) c)) = [entry_line m1 c]).
Proof.
  intros H1 H2 N2.
  assert (E : entries (format this (m1 ++ nl ++ m2) c) = [entry_line m1 c; m2]).
  { rewrite format_entry_line.
    assert (L : entry_line (m1 ++ nl ++ m2) c = (entry_line m1 c ++ nl ++ m2)%string).
    { unfold entry_line. now rewrite !append_assoc. }
    rewrite L.
    replace (nl ++ (entry_line m1 c ++ nl ++ m2) ++ nl)%string
      with ("" ++ nl ++ (entry_line m1 c ++ nl ++ (m2 ++ nl ++ "")))%string
      by (cbn [String.append]; now rewrite !append_assoc).
    rewrite !entries_app_nl, entries_empty.
    destruct (entry_line_one_line m1 c H1) as [Ho Hn].
    now rewrite (entries_one_line _ Ho Hn), (entries_one_line _ H2 N2). }
  split; [exact E|].
  intros Hre Hc Hage Hx. rewrite E. cbn [filter].
  rewrite (clean_up_keeps_entry LocalTZA this now m1 c Hre Hc Hage).
  unfold clean_up_filter at 1. rewrite Hx, N2. reflexivity.
Qed.

End Multiline.

(** ** Worked instances of the further properties *)

Lemma truncate_mode_keeps_last_witness :
  flag truncating_logger = "w" /\ accessible None = true /\
  contents (fst (drain utc_host truncating_logger (Fulfilled undefined)
                   (map log_task (["a"; "b"] ++ ["c"])) None)) = "c" /\
  snd (drain utc_host truncating_logger (Fulfilled undefined)
         (map log_task (["a"; "b"] ++ ["c"])) None) =
    map (fun _ => Fulfilled undefined) (["a"; "b"] ++ ["c"]).
Proof.
  do 2 (split; [reflexivity|]).
  exact (truncate_mode_keeps_last utc_host truncating_logger ["a"; "b"] "c" None
           eq_refl eq_refl).
Defined.

Lemma exclusive_mode_first_only_witness :
  (flag exclusive_logger = "ax" \/ flag exclusive_logger = "wx") /\
  drain utc_host exclusive_logger (Fulfilled undefined)
        (map log_task ("a" :: ["b"])) None =
    (Some (Fs.create "a"),
     Fulfilled undefined :: map (fun _ => Fulfilled (log_error Fs.EEXIST)) ["b"]) /\
  drain utc_host exclusive_logger (Fulfilled undefined)
        (map log_task ("a" :: ["b"])) (Some (file_with "old")) =
    (Some (file_with "old"),
     map (fun _ => Fulfilled (log_error Fs.EEXIST)) ("a" :: ["b"])).
Proof.
  assert (H : flag exclusive_logger = "ax" \/ flag exclusive_logger = "wx")
    by (left; reflexivity).
  split; [exact H|].
  exact (exclusive_mode_first_only utc_host exclusive_logger "a" ["b"]
           (file_with "old") H).
Defined.

Lemma queries_leave_file_witness :
  let ts := [get_logs_task None None None;
             get_logs_task (Some throwing_callback) None (Some "x")] in
  forallb is_query ts = true /\
  fst (drain utc_host sample_logger (Fulfilled undefined) ts
         (Some (file_with "x"))) = Some (file_with "x").
Proof.
  intro ts. split; [reflexivity|].
  exact (queries_leave_file utc_host sample_logger ts (Some (file_with "x")) eq_refl).
Defined.

Lemma only_log_creates_witness :
  let ts := [get_logs_task None None None; clean_up_task sample_time] in
  forallb (fun t => negb (is_log t)) ts = true /\
  fst (drain utc_host sample_logger (Fulfilled undefined) ts None) = None.
Proof.
  intro ts. split; [reflexivity|].
  exact (only_log_creates utc_host sample_logger ts eq_refl).
Defined.

Lemma callback_exception_becomes_value_witness :
  Fs.readable (file_with "x") = true /\
  (forall l, throwing_callback (Arr l) undefined = Some (Str "boom")) /\
  link utc_host sample_logger (Fulfilled undefined)
       (get_logs_task (Some throwing_callback) None None) (Some (file_with "x")) =
  (Some (file_with "x"), Fulfilled (Str "boom")).
Proof.
  assert (H : forall l, throwing_callback (Arr l) undefined = Some (Str "boom"))
    by reflexivity.
  split; [reflexivity|]. split; [exact H|].
  exact (callback_exception_becomes_value utc_host sample_logger throwing_callback
           None None (file_with "x") (Str "boom") undefined eq_refl H).
Defined.

Lemma later_compaction_subsumes_witness :
  let d := Some (file_with (nl ++ "[05/03/2024 07:08:09.4] - x" ++ nl)) in
  sample_time <= sample_time + 1 /\
  fst (handler utc_host sample_logger (clean_up_task (sample_time + 1))
         (fst (handler utc_host sample_logger (clean_up_task sample_time) d))) =
  fst (handler utc_host sample_logger (clean_up_task (sample_time + 1)) d).
Proof.
  intro d.
  assert (H : sample_time <= sample_time + 1) by (unfold sample_time; lia).
  split; [exact H|].
  exact (later_compaction_subsumes utc_host sample_logger sample_time
           (sample_time + 1) d H).
Defined.

Lemma compaction_keeps_fresh_file_witness :
  let calls := [("x", false, sample_clock)] in
  let f := file_with (text_of (map (written sample_logger) calls)) in
  let now := sample_time + 1000 in
  date_cleanUp_regex sample_logger =
    make_date_cleanUp_regex default_date_delimiter default_time_delimiter /\
  Fs.readable f = true /\ Fs.writable f = true /\
  Fs.data f = text_of (map (written sample_logger) calls) /\
  (forall c, In c calls ->
     (auto_format sample_logger || snd (fst c))%bool = true /\
     one_line (fst (fst c)) = true /\
     wf_clock (snd c) /\
     now - written_time utc_host (snd c) <= log_max_age sample_logger * 1000) /\
  fst (handler utc_host sample_logger (clean_up_task now) (Some f)) = Some f.
Proof.
  intros calls f now.
  assert (Hall : forall c, In c calls ->
     (auto_format sample_logger || snd (fst c))%bool = true /\
     one_line (fst (fst c)) = true /\
     wf_clock (snd c) /\
     now - written_time utc_host (snd c) <= log_max_age sample_logger * 1000).
  { intros c [<-|[]]. split; [reflexivity|]. split; [reflexivity|].
    split; [unfold wf_clock, sample_clock; cbn; lia | vm_compute; discriminate]. }
  do 4 (split; [reflexivity|]). split; [exact Hall|].
  exact (compaction_keeps_fresh_file utc_host sample_logger calls now f
           eq_refl eq_refl eq_refl eq_refl Hall).
Defined.

Lemma format_parse_round_trip_witness :
  wf_clock sample_clock /\ one_line "x" = true /\
  entries (format sample_logger "x" sample_clock) = [entry_line "x" sample_clock] /\
  exists ma,
    exec (make_date_cleanUp_regex default_date_delimiter default_time_delimiter)
         (entry_line "x" sample_clock) = Some ma /\
    match_time utc_host ma = written_time utc_host sample_clock.
Proof.
  assert (Hwf : wf_clock sample_clock)
    by (unfold wf_clock, sample_clock; cbn; lia).
  split; [exact Hwf|]. split; [reflexivity|].
  exact (format_parse_round_trip utc_host sample_logger "x" sample_clock Hwf eq_refl).
Defined.

Lemma foreign_date_delimiter_unparseable_witness :
  literal_delimiter "-" = true /\ "-" <> "/" /\
  modelled_delimiter "." = true /\ wf_clock sample_clock /\
  date_cleanUp_regex dashed_logger = make_date_cleanUp_regex "-" "." /\
  exec (date_cleanUp_regex dashed_logger) (entry_line "x" sample_clock) = None /\
  clean_up_filter utc_host dashed_logger sample_time (entry_line "x" sample_clock) = false.
Proof.
  assert (Hwf : wf_clock sample_clock)
    by (unfold wf_clock, sample_clock; cbn; lia).
  assert (Hne : "-" <> "/") by discriminate.
  split; [reflexivity|]. split; [exact Hne|]. split; [reflexivity|].
  split; [exact Hwf|]. split; [reflexivity|].
  exact (foreign_date_delimiter_unparseable utc_host dashed_logger "-" "." "x"
           sample_clock sample_time eq_refl Hne eq_refl Hwf eq_refl).
Defined.

Lemma foreign_time_delimiter_reads_midnight_witness :
  literal_delimiter "-" = true /\ "-" <> ":" /\ wf_clock sample_clock /\
  exists ma,
    exec (make_date_cleanUp_regex "/" "-") (entry_line "x" sample_clock) = Some ma /\
    match_time utc_host ma = midnight_time utc_host sample_clock.
Proof.
  assert (Hwf : wf_clock sample_clock)
    by (unfold wf_clock, sample_clock; cbn; lia).
  assert (Hne : "-" <> ":") by discriminate.
  split; [reflexivity|]. split; [exact Hne|]. split; [exact Hwf|].
  exact (foreign_time_delimiter_reads_midnight utc_host "-" "x" sample_clock
           eq_refl Hne Hwf).
Defined.

Lemma query_results_well_formed_witness :
  let d := Some (file_with ("a" ++ nl ++ nl ++ "b")) in
  handler utc_host sample_logger (get_logs_task None None None) d =
    (d, Return (Arr ["a"; "b"])) /\
  exists l, Arr ["a"; "b"] = Arr l /\
            forall e, In e l -> nonempty e = true /\ one_line e = true.
Proof.
  intro d. split; [reflexivity|].
  exact (query_results_well_formed utc_host sample_logger None None None d d
           (Arr ["a"; "b"]) eq_refl).
Defined.

Lemma day_filter_finds_entry_witness :
  date_regex sample_logger =
    make_date_regex default_date_delimiter default_time_delimiter /\
  wf_clock sample_clock /\
  getLogs sample_logger None (Some (day_string sample_clock)) None =
    (chain sample_logger (get_logs_task None (Some (day_string sample_clock)) None),
     Link (List.length (promise_chain sample_logger))) /\
  get_logs_filter (Some (day_string sample_clock)) None
                  (entry_line "x" sample_clock) = true.
Proof.
  assert (Hwf : wf_clock sample_clock)
    by (unfold wf_clock, sample_clock; cbn; lia).
  split; [reflexivity|]. split; [exact Hwf|].
  exact (day_filter_finds_entry sample_logger None "x" sample_clock eq_refl Hwf).
Defined.

Lemma multiline_message_split_witness :
  one_line "first" = true /\ one_line "second" = true /\ nonempty "second" = true /\
  entries (format sample_logger ("first" ++ nl ++ "second") sample_clock) =
    [entry_line "first" sample_clock; "second"] /\
  (date_cleanUp_regex sample_logger =
     make_date_cleanUp_regex default_date_delimiter default_time_delimiter ->
   wf_clock sample_clock ->
   sample_time - written_time utc_host sample_clock <= log_max_age sample_logger * 1000 ->
   exec (date_cleanUp_regex sample_logger) "second" = None ->
   filter (clean_up_filter utc_host sample_logger sample_time)
          (entries (format sample_logger ("first" ++ nl ++ "second") sample_clock)) =
     [entry_line "first" sample_clock]).
Proof.
  do 3 (split; [reflexivity|]).
  exact (multiline_message_split utc_host sample_logger "first" "second" sample_clock
           sample_time eq_refl eq_refl eq_refl).
Defined.

(* ================================================================= *)
(** * The age of an entry *)

(** ** How the matcher runs on a well-formed text *)

Lemma Takes_Lit (l s' : string) (c : captures) : Takes (Lit l) l s' c c.
Proof. intros R k x Hk. cbn [backtrack]. now rewrite strip_app. Qed.

Lemma Takes_Chr (p : ascii -> bool) (a : ascii) (s' : string) (c : captures) :
  p a = true -> Takes (Chr p) (String a EmptyString) s' c c.
Proof. intros Hp R k x Hk. cbn. now rewrite Hp. Qed.

Lemma Takes_Rep (p : ascii -> bool) (lo hi : nat) (t s' : string) (c : captures) :
  forallb p (list_ascii_of_string t) = true ->
  (lo <= String.length t <= hi)%nat ->
  String.length t = hi \/
    match s' with String a _ => p a = false | EmptyString => True end ->
  Takes (Rep p lo hi) t s' c c.
Proof.
  intros Hall Hlen Hend R k x Hk. cbn [backtrack].
  now apply rep_greedy.
Qed.

Lemma Takes_Grp (i : nat) (r : regex) (t s' : string) (c c' : captures) :
  Takes r t s' c c' -> Takes (Grp i r) t s' c ((i, t) :: c').
Proof. intros H R k x Hk. cbn [backtrack]. now apply H. Qed.

Lemma Takes_Cat (r1 r2 : regex) (t1 t2 s' : string) (c c1 c2 : captures) :
  Takes r1 t1 (t2 ++ s') c c1 -> Takes r2 t2 s' c1 c2 ->
  Takes (Cat r1 r2) (t1 ++ t2) s' c c2.
Proof.
  intros H1 H2 R k x Hk. cbn [backtrack]. rewrite append_assoc.
  apply H1. now apply H2.
Qed.

Lemma Takes_Opt (r : regex) (t s' : string) (c c' : captures) :
  Takes r t s' c c' -> Takes (Opt r) t s' c c'.
Proof.
  intros H R k x Hk. cbn [backtrack]. now rewrite (H R k x Hk).
Qed.

Lemma Takes_Opt_skip (r : regex) (s' : string) (c : captures) :
  Fails r s' c -> Takes (Opt r) EmptyString s' c c.
Proof.
  intros H R k x Hk. cbn [backtrack String.append]. now rewrite (H R k).
Qed.

Lemma Takes_exec (r : regex) (t s' : string) (c' : captures) :
  Takes r t s' [] c' -> exec r (t ++ s') = Some (t, c').
Proof. intro H. unfold exec. now apply H. Qed.

Lemma digit_not_space (a : ascii) : digit a = true -> space a = false.
Proof.
  destruct a as [[] [] [] [] [] [] [] []]; vm_compute; intro H;
    first [reflexivity | discriminate].
Qed.

Lemma literal_no_digit_ahead (dl r : string) :
  literal_delimiter dl = true -> no_digit_ahead (dl ++ r).
Proof.
  unfold literal_delimiter. intro H. apply andb_true_iff in H as [Hn Hl].
  destruct dl as [|a dl]; [discriminate|]. cbn in *.
  apply andb_true_iff in Hl as [Ha _]. now apply literal_not_digit.
Qed.

Lemma digits_first (lo hi : nat) (t : string) :
  digits (S lo) hi t ->
  exists a t', t = String a t' /\ digit a = true.
Proof.
  intros [Hl Hd]. destruct t as [|a t]; [cbn in Hl; lia|].
  unfold all_digits in Hd. cbn in Hd. apply andb_true_iff in Hd as [Ha _].
  eauto.
Qed.

Lemma Takes_digits (i : nat) (lo hi : nat) (t s' : string) (c : captures) :
  digits lo hi t ->
  String.length t = hi \/ no_digit_ahead s' ->
  Takes (Grp i (Rep digit lo hi)) t s' c ((i, t) :: c).
Proof.
  intros [Hl Hd] Hend. apply Takes_Grp, Takes_Rep; assumption.
Qed.

Lemma Fails_bracket (t r : string) (lo hi : nat) (c : captures) :
  digits (S lo) hi t -> Fails (Lit "[") (t ++ r) c.
Proof.
  intros Ht R k. destruct (digits_first _ _ _ Ht) as (a & t' & -> & Ha).
  cbn [backtrack String.append strip].
  destruct (Ascii.eqb_spec "["%char a) as [<-|_]; [|reflexivity].
  vm_compute in Ha. discriminate.
Qed.

Lemma Fails_space (r : string) (c : captures) :
  no_space_ahead r -> Fails (Chr space) r c.
Proof.
  intros H R k. destruct r as [|a r]; [reflexivity|]. cbn in *. now rewrite H.
Qed.

Lemma Fails_digits_first (i lo hi : nat) (r2 : regex) (s : string) (c : captures) :
  no_digit_ahead s -> Fails (Cat (Grp i (Rep digit (S lo) hi)) r2) s c.
Proof.
  intros H R k. cbn [backtrack]. destruct hi; [reflexivity|].
  destruct s as [|a s]; [reflexivity|]. cbn in *. now rewrite H.
Qed.

(** The optional ['['] in front of the day: taken when it is there,
    skipped when the day comes first. *)
Lemma Takes_bracket (b D r : string) (c : captures) :
  b = EmptyString \/ b = "[" -> digits 1 2 D ->
  Takes (Opt (Lit "[")) b (D ++ r) c c.
Proof.
  intros [-> | ->] HD.
  - apply Takes_Opt_skip. now apply (Fails_bracket D r 0 2).
  - apply Takes_Opt, Takes_Lit.
Qed.

(** The optional white space after the year. *)
Lemma Takes_blank (w r : string) (c : captures) :
  blank w -> (w = EmptyString -> no_space_ahead r) ->
  Takes (Opt (Chr space)) w r c c.
Proof.
  intros [-> | (a & -> & Ha)] Hr.
  - apply Takes_Opt_skip, Fails_space. now apply Hr.
  - now apply Takes_Opt, Takes_Chr.
Qed.

(** One more piece of the expression: the rest of the input is put in
    front of what follows. *)
Ltac then_take tac :=
  eapply Takes_Cat; [rewrite ?append_assoc; tac|].

Section Stamps.

Variable LocalTZA : Z -> Z.

(** The compaction expression on an entry with a well-formed timestamp:
    it matches, and the date built from the captures is the instant the
    written fields name. *)
Lemma exec_stamped (dd td e : string) (s : stamp) :
  literal_delimiter dd = true -> literal_delimiter td = true ->
  Stamped dd td e s ->
  exists ma,
    exec (make_date_cleanUp_regex dd td) e = Some ma /\
    match_time LocalTZA ma = stamp_time LocalTZA s.
Proof.
  intros Hdd Htd St.
  assert (Hne : forall lo hi t, digits (S lo) hi t -> nonempty t = true).
  { intros lo hi t Ht. destruct (digits_first _ _ _ Ht) as (a & t' & -> & _).
    reflexivity. }
  unfold make_date_cleanUp_regex, escaped. rewrite (pasted_literal td Htd).
  unfold cat_all. cbn [fold_right].
  destruct St as [b D M Y w h mi se ms rest sep Hb HD HM HY Hw Hh Hmi Hse Hany Hsep Hms Hend
                 |b D M Y w rest Hb HD HM HY Hw Hrest Hsp].
  - eexists. split.
    + match goal with
      | |- exec ?r ?e = _ =>
          replace e with
            ((b ++ D ++ dd ++ M ++ dd ++ Y ++ w ++
              (h ++ td ++ mi ++ td ++ se ++ String sep "" ++ ms ++ "") ++ "") ++ rest)%string
      end.
      2:{ rewrite !append_assoc. cbn [String.append].
          rewrite ?append_assoc, ?append_empty_r. reflexivity. }
      apply Takes_exec.
      then_take ltac:(now apply Takes_bracket).
      then_take ltac:(apply Takes_digits;
                      [assumption|right; now apply literal_no_digit_ahead]).
      then_take ltac:(apply Takes_Lit).
      then_take ltac:(apply Takes_digits;
                      [assumption|right; now apply literal_no_digit_ahead]).
      then_take ltac:(apply Takes_Lit).
      then_take ltac:(apply Takes_digits; [assumption|left; destruct HY; lia]).
      then_take ltac:(apply Takes_blank; [assumption|]; intros _;
                      destruct (digits_first _ _ _ Hh) as (a & h' & -> & Ha);
                      cbn; now apply digit_not_space).
      eapply Takes_Cat; [|apply Takes_Lit].
      apply Takes_Opt.
      then_take ltac:(apply Takes_digits;
                      [assumption|right; now apply literal_no_digit_ahead]).
      then_take ltac:(apply Takes_Lit).
      then_take ltac:(apply Takes_digits;
                      [assumption|right; now apply literal_no_digit_ahead]).
      then_take ltac:(apply Takes_Lit).
      then_take ltac:(apply Takes_digits; [assumption|right; exact Hsep]).
      then_take ltac:(now apply Takes_Chr).
      eapply Takes_Cat; [|apply Takes_Lit].
      apply Takes_digits; [assumption|].
      cbn [String.append].
      destruct Hend as [Hend|Hend]; [now left|right]. exact Hend.
    + unfold match_time, stamp_time. cbn [snd capture Nat.eqb]. unfold num, or0.
      cbn [stamp_year stamp_month stamp_day stamp_hours stamp_minutes
           stamp_seconds stamp_milliseconds].
      now rewrite (Hne _ _ _ Hh), (Hne _ _ _ Hmi), (Hne _ _ _ Hse), (Hne _ _ _ Hms).
  - eexists. split.
    + match goal with
      | |- exec ?r ?e = _ =>
          replace e with
            ((b ++ D ++ dd ++ M ++ dd ++ Y ++ w ++ "" ++ "") ++ rest)%string
      end.
      2:{ rewrite !append_assoc. cbn [String.append]. reflexivity. }
      apply Takes_exec.
      then_take ltac:(now apply Takes_bracket).
      then_take ltac:(apply Takes_digits;
                      [assumption|right; now apply literal_no_digit_ahead]).
      then_take ltac:(apply Takes_Lit).
      then_take ltac:(apply Takes_digits;
                      [assumption|right; now apply literal_no_digit_ahead]).
      then_take ltac:(apply Takes_Lit).
      then_take ltac:(apply Takes_digits; [assumption|left; destruct HY; lia]).
      then_take ltac:(cbn [String.append]; now apply Takes_blank).
      eapply Takes_Cat; [|apply Takes_Lit].
      apply Takes_Opt_skip. cbn [String.append].
      now apply Fails_digits_first.
    + unfold match_time, stamp_time. cbn [snd capture Nat.eqb]. unfold num, or0.
      reflexivity.
Qed.

End Stamps.

(** ** Retention at the boundary *)

Section Retention.

Variable LocalTZA : Z -> Z.

(** A line of the formatter is a well-formed timestamp for the default
    delimiters, and it reads as the fields that were written. *)
Lemma entry_line_stamped (m : string) (c : DateObj) :
  wf_clock c ->
  exists s,
    Stamped "/" ":" (entry_line m c) s /\
    stamp_time LocalTZA s = written_time LocalTZA c.
Proof.
  intros (Hy & Hmo & Hd & Hh & Hmi & Hs & Hms).
  destruct (pad_digits (getDate c)) as (D1 & D2 & D3); [lia|].
  destruct (pad_digits (getMonth c + 1)) as (M1 & M2 & M3); [lia|].
  destruct (year_digits (getFullYear c)) as (Y1 & Y2 & Y3); [lia|].
  destruct (pad_digits (getHours c)) as (h1 & h2 & h3); [lia|].
  destruct (pad_digits (getMinutes c)) as (mi1 & mi2 & mi3); [lia|].
  destruct (pad_digits (getSeconds c)) as (s1 & s2 & s3); [lia|].
  destruct (millisecond_digits (getMilliseconds c)) as (ms1 & ms2 & ms3); [lia|].
  eexists. split.
  - apply (Stamped_time "/" ":" "[" (pad (getDate c)) (pad (getMonth c + 1))
             (ToString (getFullYear c)) " " (pad (getHours c))
             (pad (getMinutes c)) (pad (getSeconds c))
             (ToString (getMilliseconds c)) ("] - " ++ m) "."%char);
      unfold digits, all_digits, blank; try (split; [lia|assumption]);
      auto.
    + right. exists " "%char. split; reflexivity.
    + right. reflexivity.
  - unfold stamp_time, written_time.
    cbn [stamp_year stamp_month stamp_day stamp_hours stamp_minutes
         stamp_seconds stamp_milliseconds].
    now rewrite D3, M3, Y3, h3, mi3, s3, ms3.
Qed.

Lemma clean_up_pass_app (this : Logger) (clock : nat -> Z) (l1 l2 : list string) :
  forall k,
  clean_up_pass LocalTZA this clock k (l1 ++ l2) =
  clean_up_pass LocalTZA this clock k l1 ++
  clean_up_pass LocalTZA this clock (k + clock_reads this l1) l2.
Proof.
  induction l1 as [|x l1 IH]; intro k.
  - cbn. now rewrite Nat.add_0_r.
  - cbn [app clean_up_pass]. unfold clock_reads. cbn [filter].
    rewrite IH. unfold clock_reads.
    destruct (reads_clock this x); cbn [List.length];
      rewrite <- ?Nat.add_succ_comm;
      destruct (clean_up_filter LocalTZA this (clock k) x); reflexivity.
Qed.

Lemma clean_up_pass_incl (this : Logger) (clock : nat -> Z) (logs : list string) :
  forall k x, In x (clean_up_pass LocalTZA this clock k logs) -> In x logs.
Proof.
  induction logs as [|y logs IH]; intros k x H; [contradiction|].
  cbn [clean_up_pass] in H.
  destruct (clean_up_filter LocalTZA this (clock k) y).
  - destruct H as [<-|H]; [now left|right; eauto].
  - right. eauto.
Qed.

(** C4. Compaction judges every entry whose timestamp parses by its age at
    the reading of the clock made for it: the entry stays, at its place
    among the entries kept before and after it, when that reading minus the
    parsed time is at most [log_max_age * 1000], the boundary included, and
    goes when the age is strictly greater.  On a logger built with literal
    delimiters, the parsed time of an entry with a well-formed timestamp is
    the instant its written fields name (year, month counted from 1, day,
    and the time when there is one). *)
Theorem retention_boundary (this : Logger) (clock : nat -> Z) (f : Fs.file)
  (before after : list string) (e : string) (ma : string * captures) :
  Fs.readable f = true -> Fs.writable f = true ->
  entries (Fs.data f) = before ++ e :: after ->
  exec (date_cleanUp_regex this) e = Some ma ->
  let k := clock_reads this before in
  let age := clock k - match_time LocalTZA ma in
  entries (contents (fst (handler LocalTZA this (clean_up_with clock) (Some f)))) =
    clean_up_pass LocalTZA this clock 0 before ++
    (if age <=? log_max_age this * 1000 then [e] else []) ++
    clean_up_pass LocalTZA this clock (S k) after /\
  (forall dd td s,
     literal_delimiter dd = true -> literal_delimiter td = true ->
     date_cleanUp_regex this = make_date_cleanUp_regex dd td ->
     Stamped dd td e s ->
     match_time LocalTZA ma = stamp_time LocalTZA s).
Proof.
  intros Hr Hw He Hx k age. split.
  - rewrite (handler_clean_up_with_ok LocalTZA this clock f Hr Hw).
    cbn [fst contents Fs.data].
    rewrite entries_compacted.
    2:{ intros x Hin. apply clean_up_pass_incl in Hin.
        now apply entries_spec in Hin. }
    rewrite He, clean_up_pass_app. cbn [plus]. fold k. f_equal.
    assert (Hn : nonempty e = true).
    { apply (entries_spec (Fs.data f)). rewrite He. apply in_or_app.
      right. now left. }
    cbn [clean_up_pass]. unfold reads_clock, clean_up_filter.
    rewrite Hn, Hx. cbn [negb]. fold age.
    destruct (Z.gtb_spec age (log_max_age this * 1000)) as [Hgt|Hle];
      destruct (Z.leb_spec age (log_max_age this * 1000)); try lia; reflexivity.
  - intros dd td s Hdd Htd Hre St.
    destruct (exec_stamped LocalTZA dd td e s Hdd Htd St) as (ma' & Hx' & Ht).
    rewrite Hre, Hx' in Hx. now inversion Hx; subst.
Qed.

End Retention.

(** ** Worked instances *)

(** The sample entry carries a well-formed timestamp that reads as
    5 March 2024, 07:08:09.004. *)
Example sample_entry_stamped :
  Stamped "/" ":" "[05/03/2024 07:08:09.4] - b"
          {| stamp_year := 2024; stamp_month := 3; stamp_day := 5;
             stamp_hours := 7; stamp_minutes := 8; stamp_seconds := 9;
             stamp_milliseconds := 4 |} /\
  stamp_time utc_host
    {| stamp_year := 2024; stamp_month := 3; stamp_day := 5;
       stamp_hours := 7; stamp_minutes := 8; stamp_seconds := 9;
       stamp_milliseconds := 4 |} = sample_time.
Proof.
  split; [|reflexivity].
  apply (Stamped_time "/" ":" "[" "05" "03" "2024" " " "07" "08" "09" "4"
           "] - b" "."%char);
    unfold digits, all_digits, blank; cbn;
    try (split; [lia|reflexivity]); auto.
  right. exists " "%char. split; reflexivity.
Qed.

(** The compaction expression reads the same instant off that entry. *)
Example sample_entry_parsed :
  option_map (match_time utc_host)
    (exec (make_date_cleanUp_regex "/" ":") "[05/03/2024 07:08:09.4] - b") =
  Some sample_time.
Proof. vm_compute. reflexivity. Qed.

(** Two entries with the same timestamp, the clock reading the boundary
    for the first and one millisecond more for the second: the first is
    kept, the second is dropped. *)
Example per_entry_clock_example :
  let clock := fun i => sample_time + 7776000000 + Z.of_nat i in
  let raw := (nl ++ "[05/03/2024 07:08:09.4] - a" ++ nl ++
              nl ++ "[05/03/2024 07:08:09.4] - b" ++ nl)%string in
  entries (contents (fst (handler utc_host sample_logger (clean_up_with clock)
                            (Some (file_with raw))))) =
  ["[05/03/2024 07:08:09.4] - a"].
Proof. vm_compute. reflexivity. Qed.

Lemma retention_boundary_witness :
  let clock := fun i => sample_time + 7776000000 + Z.of_nat i in
  let e0 := "[05/03/2024 07:08:09.4] - a" in
  let e := "[05/03/2024 07:08:09.4] - b" in
  let f := file_with (nl ++ e0 ++ nl ++ nl ++ e ++ nl) in
  let ma := ("[05/03/2024 07:08:09.4",
             [(7%nat, "4"); (6%nat, "09"); (5%nat, "08"); (4%nat, "07");
              (3%nat, "2024"); (2%nat, "03"); (1%nat, "05")]) in
  Fs.readable f = true /\ Fs.writable f = true /\
  entries (Fs.data f) = [e0] ++ e :: [] /\
  exec (date_cleanUp_regex sample_logger) e = Some ma /\
  let k := clock_reads sample_logger [e0] in
  let age := clock k - match_time utc_host ma in
  entries (contents (fst (handler utc_host sample_logger (clean_up_with clock)
                            (Some f)))) =
    clean_up_pass utc_host sample_logger clock 0 [e0] ++
    (if age <=? log_max_age sample_logger * 1000 then [e] else []) ++
    clean_up_pass utc_host sample_logger clock (S k) [] /\
  (forall dd td s,
     literal_delimiter dd = true -> literal_delimiter td = true ->
     date_cleanUp_regex sample_logger = make_date_cleanUp_regex dd td ->
     Stamped dd td e s ->
     match_time utc_host ma = stamp_time utc_host s).
Proof.
  intros clock e0 e f ma.
  do 4 (split; [reflexivity|]).
  exact (retention_boundary utc_host sample_logger clock f [e0] [] e ma
           eq_refl eq_refl eq_refl eq_refl).
Defined.


Lemma date_regex_language_witness :
  literal_delimiter "/" = true /\ literal_delimiter ":" = true /\
  (test (make_date_regex "/" ":") "[5/3/2024 and more" = true <->
   exists b D M Y rest,
     "[5/3/2024 and more" = (b ++ D ++ "/" ++ M ++ "/" ++ Y ++ rest)%string /\
     (b = "" \/ b = "[") /\
     (1 <= String.length D <= 2)%nat /\ all_digits D = true /\
     (1 <= String.length M <= 2)%nat /\ all_digits M = true /\
     String.length Y = 4%nat /\ all_digits Y = true).
Proof.
  do 2 (split; [reflexivity|]).
  exact (date_regex_language "/" ":" "[5/3/2024 and more" eq_refl eq_refl).
Defined.

Lemma constructor_validation_witness :
  modelled_delimiter "-" = true /\ modelled_delimiter "." = true /\
  ((exists this,
      constructor "test.log" "a" 7776000 "-" "." true = Some (Return this)) <->
   "test.log" <> "" /\
   ("a" = "a" \/ "a" = "ax" \/ "a" = "w" \/ "a" = "wx")) /\
  (forall this,
     constructor "test.log" "a" 7776000 "-" "." true = Some (Return this) ->
     this = initialised "test.log" "a" 7776000 "-" "." true /\
     promise_chain this = []).
Proof.
  do 2 (split; [reflexivity|]).
  exact (proj2 (proj2 (constructor_validation "test.log" "a" 7776000 "-" "." true))
           eq_refl eq_refl).
Defined.
